(** * RR10 serial NFC reader driver: frames and link handshake

    A shallow embedding of [rr10.py]: the [Message] frame (a [bytearray]
    subclass with a length byte, a command byte, a parameters region and a
    two-byte little-endian checksum) and the [RR10] handshake over a serial
    transport, followed by the properties of the frame layout, of the
    validating constructor and of the two handshakes. *)

From Stdlib Require Import ZArith List Bool Lia Permutation.
From Stdlib Require Import Strings.Ascii Strings.String Strings.Byte.
From Stdlib Require Import DecimalString HexadecimalString.
Import ListNotations.

Open Scope Z_scope.

(** ** Python values used by the driver *)

(** Exceptions.  The driver raises plain [Exception] objects that differ by
    their message only; the built-in errors come from the operations on
    [bytearray], [int] and [str] that the driver calls. *)
Inductive exn : Type :=
| Exception (msg : string)
| IndexError
| ValueError
| OverflowError
| TypeError
| AttributeError.

Inductive result (A : Type) : Type :=
| Ok (a : A)
| Err (e : exn).
Arguments Ok {A} a.
Arguments Err {A} e.

(** An item of a [bytes] or [bytearray] object read as a Python [int]. *)
Definition int_of_byte (b : byte) : Z := Z.of_N (Byte.to_N b).

(** Storing an [int] as an item: only [range(0, 256)] is accepted. *)
Definition byte_of_int (z : Z) : option byte :=
  if z <? 0 then None else Byte.of_N (Z.to_N z).

(** [len(x)] as a Python [int]. *)
Definition len {A : Type} (l : list A) : Z := Z.of_nat (List.length l).

(** [sum(x)] over the items of a byte sequence, starting from [0]. *)
Definition sum (l : list byte) : Z :=
  fold_left (fun acc b => acc + int_of_byte b) l 0.

(** [n.to_bytes(2, 'little')]: refuses negative numbers and numbers that do
    not fit in two bytes. *)
Definition to_bytes_2_little (n : Z) : result (list byte) :=
  if (n <? 0) || (65535 <? n) then Err OverflowError
  else match byte_of_int (n mod 256), byte_of_int (n / 256) with
       | Some lo, Some hi => Ok [lo; hi]
       | _, _ => Err OverflowError
       end.

(** [bytearray(n)] for an [int] [n]: [n] zero bytes, [ValueError] when
    [n] is negative. *)
Definition bytearray_count (n : Z) : result (list byte) :=
  if n <? 0 then Err ValueError else Ok (repeat x00 (Z.to_nat n)).

(** [bytearray(t)] for a tuple of [int]s: [ValueError] at the first item
    outside [range(0, 256)]. *)
Fixpoint bytearray_of_ints (t : list Z) : result (list byte) :=
  match t with
  | [] => Ok []
  | z :: t' =>
      match byte_of_int z with
      | None => Err ValueError
      | Some b =>
          match bytearray_of_ints t' with
          | Ok bs => Ok (b :: bs)
          | Err e => Err e
          end
      end
  end.

(** Equality of two byte sequences ([bytes] and [bytearray] compare by
    content). *)
Fixpoint bytes_eqb (a b : list byte) : bool :=
  match a, b with
  | [], [] => true
  | x :: a', y :: b' => Byte.eqb x y && bytes_eqb a' b'
  | _, _ => false
  end.

(** *** Slices *)

(** A slice bound after Python's adjustment for step 1: a negative bound
    counts from the end, and the result is clamped to [0 .. n]. *)
Definition adjust_index (n i : Z) : Z :=
  if i <? 0 then Z.max 0 (i + n) else Z.min i n.

Definition slice_bounds (n : Z) (start stop : option Z) : Z * Z :=
  (match start with None => 0 | Some i => adjust_index n i end,
   match stop with None => n | Some j => adjust_index n j end).

(** [l[start:stop]] *)
Definition slice_get {A : Type} (l : list A) (start stop : option Z) : list A :=
  let '(lo, hi) := slice_bounds (len l) start stop in
  firstn (Z.to_nat (hi - lo)) (skipn (Z.to_nat lo) l).

(** [l[start:stop] = v]: an empty or reversed range inserts at [start]. *)
Definition slice_set {A : Type} (l : list A) (start stop : option Z)
    (v : list A) : list A :=
  let '(lo, hi) := slice_bounds (len l) start stop in
  firstn (Z.to_nat lo) l ++ v ++ skipn (Z.to_nat (Z.max lo hi)) l.

(** The position an integer subscript designates, if any. *)
Definition item_index (n i : Z) : option nat :=
  let j := if i <? 0 then i + n else i in
  if (j <? 0) || (n <=? j) then None else Some (Z.to_nat j).

Fixpoint list_update {A : Type} (l : list A) (k : nat) (x : A) : list A :=
  match l, k with
  | [], _ => []
  | _ :: l', O => x :: l'
  | y :: l', S k' => y :: list_update l' k' x
  end.

(** *** Formatting *)

Definition newline : string := String (ascii_of_nat 10) EmptyString.

(** ['{}'.format(n)] for an [int]. *)
Definition str_int (n : Z) : string :=
  DecimalString.NilZero.string_of_int (Z.to_int n).

Definition hex_digits (n : N) : string :=
  HexadecimalString.NilZero.string_of_uint (N.to_hex_uint n).

(** ['{:#x}'.format(n)] for an [int]. *)
Definition format_hash_x (n : Z) : string :=
  if n <? 0 then ("-0x" ++ hex_digits (Z.to_N (- n)))%string
  else ("0x" ++ hex_digits (Z.to_N n))%string.

(** [b.hex()]: two lowercase digits per byte. *)
Fixpoint bytes_hex (b : list byte) : string :=
  match b with
  | [] => EmptyString
  | x :: b' =>
      (hex_digits (Byte.to_N x / 16) ++ hex_digits (Byte.to_N x mod 16)
       ++ bytes_hex b')%string
  end.

(** ['{:#x}'.format(s)] for a [bytes] object [s]: [bytes] has no
    [__format__] of its own and [object.__format__] refuses every
    non-empty format specification, whatever [s] holds. *)
Definition format_hash_x_bytes (s : list byte) : result string :=
  Err TypeError.

(** ** The frame: [class Message(bytearray)] *)

Module Message.

(** A [Message] object: the bytes of the [bytearray] it is, and the
    [_parameters] attribute in which the [parameters] property keeps the
    view it handed out ([None] until the attribute is set). *)
Record t : Type := mk {
  data : list byte;
  _parameters : option (list byte)
}.

Definition INDEX_LENGTH : Z := 0.
Definition INDEX_COMMAND : Z := 1.
Definition INDEX_PARAMETERS : Z := 2.
Definition INDEX_CHECKSUM : Z := -2.

Definition MIN_LENGTH : Z := 4.
Definition MAX_LENGTH : Z := 255.
Definition MAX_PARAMETERS : Z := 251.

Definition COMMAND_CONNECTION : Z := 0x01.
Definition COMMAND_SELECT_RF : Z := 0x02.
Definition COMMAND_GET_VERSION : Z := 0x03.
Definition COMMAND_ISO15693_TAG_INVENTORY : Z := 0x06.
Definition COMMAND_ISO15693_TAG_ACCESS : Z := 0x07.
Definition COMMAND_ISO14443A_TAS_ACCESS : Z := 0x08.
Definition COMMAND_ISO14443A_TAG_INVENTORY : Z := 0x09.
Definition COMMAND_MIFARE_ULTRALIGHT_TAG_ACCESS : Z := 0x08.
Definition COMMAND_TOPAZ_TAG_INVENTORY : Z := 0x0F.
Definition COMMAND_TOPAZ_TAG_ACCESS : Z := 0x0F.
Definition COMMAND_ST_TAG_INVENTORY : Z := 0x0A.
Definition COMMAND_ST_TAG_ACCESS : Z := 0x0B.
Definition COMMAND_ISO14443B_TAG_INVENTORY : Z := 0x0C.
Definition COMMAND_ISO14443B_TAG_ACCESS : Z := 0x0D.
Definition COMMAND_FELICA_TAG_INVENTORY : Z := 0x0E.
Definition COMMAND_DEVICE_SET_TARGET : Z := 0x20.
Definition COMMAND_DEVICE_SET_INITIATOR : Z := 0x21.

(** The integer attributes of the class body, in the order of their
    definition ([vars(cls)] restricted to the names bound to an [int]; the
    other names of the class are its methods, properties and the inner
    class, none of which starts with [COMMAND_]). *)
Definition class_vars : list (string * Z) :=
  [ ("INDEX_LENGTH", INDEX_LENGTH);
    ("INDEX_COMMAND", INDEX_COMMAND);
    ("INDEX_PARAMETERS", INDEX_PARAMETERS);
    ("INDEX_CHECKSUM", INDEX_CHECKSUM);
    ("MIN_LENGTH", MIN_LENGTH);
    ("MAX_LENGTH", MAX_LENGTH);
    ("MAX_PARAMETERS", MAX_PARAMETERS);
    ("COMMAND_CONNECTION", COMMAND_CONNECTION);
    ("COMMAND_SELECT_RF", COMMAND_SELECT_RF);
    ("COMMAND_GET_VERSION", COMMAND_GET_VERSION);
    ("COMMAND_ISO15693_TAG_INVENTORY", COMMAND_ISO15693_TAG_INVENTORY);
    ("COMMAND_ISO15693_TAG_ACCESS", COMMAND_ISO15693_TAG_ACCESS);
    ("COMMAND_ISO14443A_TAS_ACCESS", COMMAND_ISO14443A_TAS_ACCESS);
    ("COMMAND_ISO14443A_TAG_INVENTORY", COMMAND_ISO14443A_TAG_INVENTORY);
    ("COMMAND_MIFARE_ULTRALIGHT_TAG_ACCESS", COMMAND_MIFARE_ULTRALIGHT_TAG_ACCESS);
    ("COMMAND_TOPAZ_TAG_INVENTORY", COMMAND_TOPAZ_TAG_INVENTORY);
    ("COMMAND_TOPAZ_TAG_ACCESS", COMMAND_TOPAZ_TAG_ACCESS);
    ("COMMAND_ST_TAG_INVENTORY", COMMAND_ST_TAG_INVENTORY);
    ("COMMAND_ST_TAG_ACCESS", COMMAND_ST_TAG_ACCESS);
    ("COMMAND_ISO14443B_TAG_INVENTORY", COMMAND_ISO14443B_TAG_INVENTORY);
    ("COMMAND_ISO14443B_TAG_ACCESS", COMMAND_ISO14443B_TAG_ACCESS);
    ("COMMAND_FELICA_TAG_INVENTORY", COMMAND_FELICA_TAG_INVENTORY);
    ("COMMAND_DEVICE_SET_TARGET", COMMAND_DEVICE_SET_TARGET);
    ("COMMAND_DEVICE_SET_INITIATOR", COMMAND_DEVICE_SET_INITIATOR) ]%string.

(** [get_commands]: the class attributes whose name starts with
    [COMMAND_].  The class keeps the dictionary in [__commands] after the
    first call; every call returns the same content. *)
Definition get_commands : list (string * Z) :=
  filter (fun kv => String.prefix "COMMAND_" (fst kv)) class_vars.

(** [command in self.get_commands().values()] *)
Definition known_command (command : Z) : bool :=
  existsb (Z.eqb command) (map snd get_commands).

(** *** The exceptions the class raises

    Each is a plain [Exception]; the message is what tells them apart. *)

(** [raise Exception('Error: Message too long')] *)
Definition FrameTooLong : exn := Exception "Error: Message too long".

(** [raise Exception('Error: Incorrect message length ({:#x}).\n'.format(len(self)))] *)
Definition LengthMismatch (n : Z) : exn :=
  Exception ("Error: Incorrect message length (" ++ format_hash_x n ++ ")."
             ++ newline).

(** [raise Exception('Error: Incorrect message checksum (0x{}).\n'.format(checksum.hex()))] *)
Definition ChecksumMismatch (computed : list byte) : exn :=
  Exception ("Error: Incorrect message checksum (0x" ++ bytes_hex computed
             ++ ")." ++ newline).

(** [raise Exception('Unknown constructor...')] *)
Definition UnknownConstructor : exn := Exception "Unknown constructor...".

(** [raise Exception("Parameters must be a bytearray")] *)
Definition NotABytearray : exn := Exception "Parameters must be a bytearray".

(** [raise Exception("Too many parameters. Maximum {}".format(self.MAX_PARAMETERS))] *)
Definition TooManyParameters : exn :=
  Exception ("Too many parameters. Maximum " ++ str_int MAX_PARAMETERS).

(** [raise Exception('Unknow command {}'.format(command))] *)
Definition InvalidCommand (c : Z) : exn :=
  Exception ("Unknow command " ++ str_int c).

(** *** Methods as state transformers that may raise

    A method runs on the object and either returns a value or raises; the
    object is kept in both cases, so that what a failed call left behind
    can be observed. *)
Inductive outcome (A : Type) : Type :=
| Return (a : A) (self : t)
| Raise (e : exn) (self : t).
Arguments Return {A} a self.
Arguments Raise {A} e self.

Definition method (A : Type) : Type := t -> outcome A.

Definition ret {A : Type} (a : A) : method A := fun self => Return a self.
Definition raise {A : Type} (e : exn) : method A := fun self => Raise e self.
Definition bind {A B : Type} (m : method A) (k : A -> method B) : method B :=
  fun self =>
    match m self with
    | Return a self' => k a self'
    | Raise e self' => Raise e self'
    end.
Definition lift {A : Type} (r : result A) : method A :=
  match r with Ok a => ret a | Err e => raise e end.

Declare Scope method_scope.
Delimit Scope method_scope with method.
Notation "x <- m ;; k" := (bind m (fun x => k))
  (at level 61, m at next level, right associativity) : method_scope.
Notation "m ;; k" := (bind m (fun _ => k))
  (at level 61, right associativity) : method_scope.
Open Scope method_scope.

(** The [bytearray] operations the class uses on itself. *)

(** [len(self)] *)
Definition len_self : method Z := fun self => Return (len (data self)) self.

(** [super().__init__(source)]: the content becomes a copy of [source]. *)
Definition bytearray_init (source : list byte) : method unit :=
  fun self => Return tt (mk source (_parameters self)).

(** [self[i]] *)
Definition getitem (i : Z) : method Z :=
  fun self =>
    match item_index (len (data self)) i with
    | Some k => Return (int_of_byte (nth k (data self) x00)) self
    | None => Raise IndexError self
    end.

(** [self[i] = v]: the value is converted first, then the index is
    checked. *)
Definition setitem (i v : Z) : method unit :=
  fun self =>
    match byte_of_int v with
    | None => Raise ValueError self
    | Some b =>
        match item_index (len (data self)) i with
        | Some k => Return tt (mk (list_update (data self) k b) (_parameters self))
        | None => Raise IndexError self
        end
    end.

(** [self[start:stop]] *)
Definition getslice (start stop : option Z) : method (list byte) :=
  fun self => Return (slice_get (data self) start stop) self.

(** [self[start:stop] = v] *)
Definition setslice (start stop : option Z) (v : list byte) : method unit :=
  fun self => Return tt (mk (slice_set (data self) start stop v) (_parameters self)).

(** [self += v] *)
Definition iadd (v : list byte) : method unit :=
  fun self => Return tt (mk (data self ++ v) (_parameters self)).

(** [setattr(self, "_parameters", view)] *)
Definition set_view (view : list byte) : method unit :=
  fun self => Return tt (mk (data self) (Some view)).

(** *** The methods of the class *)

(** The [checksum] property: [self[self.INDEX_CHECKSUM:]]. *)
Definition checksum : method (list byte) :=
  getslice (Some INDEX_CHECKSUM) None.

Definition get_checksum : method (list byte) :=
  s <- getslice None (Some INDEX_CHECKSUM) ;;
  lift (to_bytes_2_little (sum s)).

Definition _update_checksum : method unit :=
  c <- get_checksum ;;
  setslice (Some INDEX_CHECKSUM) None c.

(** The [length] property: [self[self.INDEX_LENGTH]]. *)
Definition length : method Z := getitem INDEX_LENGTH.

Definition _update_length : method unit :=
  n <- len_self ;;
  setitem INDEX_LENGTH n ;;
  _update_checksum.

(** The [parameters] property: the view kept in [_parameters] when there
    is one and it is not empty, otherwise a new view over
    [self[INDEX_PARAMETERS:INDEX_CHECKSUM]], which is kept. *)
Definition parameters : method (list byte) :=
  fun self =>
    match _parameters self with
    | Some (b :: view) => Return (b :: view) self
    | _ =>
        (p <- getslice (Some INDEX_PARAMETERS) (Some INDEX_CHECKSUM) ;;
         set_view p ;;
         ret p) self
    end.

(** What a caller may assign to [parameters]: a plain [bytearray], a
    [ParametersArray] (the view class, a [bytearray] subclass), or an object
    that is not a [bytearray]. *)
Inductive value : Type :=
| Bytearray (v : list byte)
| ParametersArray (v : list byte)
| NotBytearray.

Definition is_bytearray (x : value) : option (list byte) :=
  match x with
  | Bytearray v | ParametersArray v => Some v
  | NotBytearray => None
  end.

Definition is_ParametersArray (x : value) : bool :=
  match x with ParametersArray _ => true | _ => false end.

(** The setter of [parameters]. *)
Definition set_parameters (x : value) : method unit :=
  match is_bytearray x with
  | None => raise NotABytearray
  | Some v =>
      if MAX_PARAMETERS <? len v then raise TooManyParameters
      else
        n <- len_self ;;
        (if negb (len v + MIN_LENGTH =? n) then
           z <- lift (bytearray_count ((len v + MIN_LENGTH) - n)) ;;
           iadd z
         else ret tt) ;;
        setslice (Some INDEX_PARAMETERS) (Some INDEX_CHECKSUM) v ;;
        _update_length ;;
        if negb (is_ParametersArray x) then set_view v else ret tt
  end.

(** The [command] property: [self[self.INDEX_COMMAND]]. *)
Definition command : method Z := getitem INDEX_COMMAND.

(** The setter of [command]. *)
Definition set_command (c : Z) : method unit :=
  if negb (known_command c) then
    raise (InvalidCommand c)
  else
    setitem INDEX_COMMAND c ;;
    _update_checksum.

(** The first argument of the constructor: a [bytes] or [bytearray]
    object, an [int], or anything else. *)
Inductive ctor_arg : Type :=
| Sequence (raw : list byte)
| Command (c : Z)
| Unknown.

Definition __init__ (command_or_sequence : ctor_arg) (parameters : list Z)
    : method unit :=
  match command_or_sequence with
  | Sequence raw =>
      bytearray_init raw ;;
      n <- len_self ;;
      if MAX_LENGTH <? n then raise FrameTooLong
      else
        l <- length ;;
        if negb (n =? l) then raise (LengthMismatch n)
        else
          c <- get_checksum ;;
          stored <- checksum ;;
          if negb (bytes_eqb c stored) then raise (ChecksumMismatch c)
          else ret tt
  | Command c =>
      z <- lift (bytearray_count (MIN_LENGTH + len parameters)) ;;
      bytearray_init z ;;
      set_command c ;;
      v <- lift (bytearray_of_ints parameters) ;;
      set_parameters (Bytearray v)
  | Unknown => raise UnknownConstructor
  end.

(** [Message(command_or_sequence, *parameters)]: a new, empty object on
    which [__init__] runs; the object exists only if [__init__] returns. *)
Definition construct (command_or_sequence : ctor_arg) (parameters : list Z)
    : result t :=
  match __init__ command_or_sequence parameters (mk [] None) with
  | Return _ self => Ok self
  | Raise e _ => Err e
  end.

(** The two constructor forms. *)
Definition new (c : Z) (parameters : list Z) : result t :=
  construct (Command c) parameters.

Definition from_bytes (raw : list byte) : result t :=
  construct (Sequence raw) [].

(** [bytes(self)] *)
Definition to_bytes (self : t) : list byte := data self.

Definition version : result t := new COMMAND_GET_VERSION [].

Definition test : result t := new COMMAND_CONNECTION [0x05; 0x0A].

End Message.

(** ** The link: [class RR10(NFCSerial)] *)

Module RR10.

(** A method of the driver is a program over the serial port: it returns,
    raises, or performs [self.serial.read(size)], [self.serial.write(bs)]
    or [print(text)] and goes on with the answer. *)
Inductive io (A : Type) : Type :=
| Ret (a : A)
| Throw (e : exn)
| Read (size : Z) (k : list byte -> io A)
| Write (bs : list byte) (k : Z -> io A)
| Print (text : string) (k : io A).
Arguments Ret {A} a.
Arguments Throw {A} e.
Arguments Read {A} size k.
Arguments Write {A} bs k.
Arguments Print {A} text k.

Fixpoint bind {A B : Type} (p : io A) (f : A -> io B) : io B :=
  match p with
  | Ret a => f a
  | Throw e => Throw e
  | Read size k => Read size (fun got => bind (k got) f)
  | Write bs k => Write bs (fun count => bind (k count) f)
  | Print text k => Print text (bind k f)
  end.

Definition lift {A : Type} (r : result A) : io A :=
  match r with Ok a => Ret a | Err e => Throw e end.

Definition serial_read (size : Z) : io (list byte) := Read size Ret.
Definition serial_write (bs : list byte) : io Z := Write bs Ret.
Definition print (text : string) : io unit := Print text (Ret tt).

Declare Scope io_scope.
Delimit Scope io_scope with io.
Notation "x <- p ;; q" := (bind p (fun x => q))
  (at level 61, p at next level, right associativity) : io_scope.
Notation "p ;; q" := (bind p (fun _ => q))
  (at level 61, right associativity) : io_scope.
Open Scope io_scope.

(** [int(b.hex(), 16)]: the bytes read as one big-endian number;
    [int('', 16)] is a [ValueError]. *)
Definition int_of_hex (b : list byte) : result Z :=
  match b with
  | [] => Err ValueError
  | _ => Ok (fold_left (fun acc x => acc * 256 + int_of_byte x) b 0)
  end.

(** Synchronize with the reader: is it ready to receive? *)
Definition prepare_to_send : io bool :=
  serial_write [x55] ;;
  s <- serial_read 1 ;;
  if negb (bytes_eqb s [xaa]) then
    text <- lift (format_hash_x_bytes s) ;;
    print ("Received: " ++ text ++ " instead of 0xAA") ;;
    Ret false
  else Ret true.

(** Synchronize with the device: are we ready to receive? *)
Definition ready_to_receive : io bool :=
  s <- serial_read 1 ;;
  if negb (bytes_eqb s [xa5]) then
    text <- lift (format_hash_x_bytes s) ;;
    print ("Received: " ++ text ++ " instead of 0xA5") ;;
    Ret false
  else
    count <- serial_write [x5a] ;;
    Ret (1 =? count).

Definition send (message : Message.t) : io Z :=
  ready <- prepare_to_send ;;
  if ready then serial_write (Message.to_bytes message)
  else Ret 0.

(** The names an [RR10] object answers to: its one instance attribute, the
    names bound in the body of [RR10], and the one inherited from
    [NFCSerial]. *)
Definition instance_dict : list string := ["serial"]%string.
Definition RR10_dict : list string :=
  ["__init__"; "send"; "receive"; "prepare_to_send"; "ready_to_receive"]%string.
Definition NFCSerial_dict : list string := ["__init__"]%string.

Definition hasattr (name : string) : bool :=
  existsb (String.eqb name) (instance_dict ++ RR10_dict ++ NFCSerial_dict).

(** [self.<name>()] where a handshake is expected.  The attribute is looked
    up when the call is made: a name the object does not have is an
    [AttributeError].  Of the names it has, the two handshakes are the
    methods that take no argument and return a truth value. *)
Definition call_handshake (name : string) : io bool :=
  if negb (hasattr name) then Throw AttributeError
  else if String.eqb name "prepare_to_send" then prepare_to_send
  else if String.eqb name "ready_to_receive" then ready_to_receive
  else Throw TypeError.

Definition receive : io (option Message.t) :=
  ready <- call_handshake "prepare_to_receive" ;;
  if negb ready then Ret None
  else
    (* first read length *)
    length <- serial_read 1 ;;
    n <- lift (int_of_hex length) ;;
    data <- serial_read n ;;
    m <- lift (Message.from_bytes (length ++ data)) ;;
    Ret (Some m).

(** *** Running a program on a transport *)

(** The transport collaborator: [read(size)] answers with bytes and
    [write(bs)] with a count, each moving the transport to a new state. *)
Class Serial (S : Type) : Type := {
  read : Z -> S -> list byte * S;
  write : list byte -> S -> Z * S
}.

(** What was done on the port and the console, in order. *)
Inductive event : Type :=
| DidRead (size : Z) (got : list byte)
| DidWrite (bs : list byte) (count : Z)
| DidPrint (text : string).

Fixpoint run {S : Type} `{Serial S} {A : Type} (p : io A) (s : S)
    : result A * S * list event :=
  match p with
  | Ret a => (Ok a, s, [])
  | Throw e => (Err e, s, [])
  | Read size k =>
      let '(got, s1) := read size s in
      let '(r, s2, tr) := run (k got) s1 in
      (r, s2, DidRead size got :: tr)
  | Write bs k =>
      let '(count, s1) := write bs s in
      let '(r, s2, tr) := run (k count) s1 in
      (r, s2, DidWrite bs count :: tr)
  | Print text k =>
      let '(r, s2, tr) := run k s in
      (r, s2, DidPrint text :: tr)
  end.

(** The writes of a trace. *)
Definition writes (tr : list event) : list (list byte) :=
  flat_map (fun ev => match ev with DidWrite bs _ => [bs] | _ => [] end) tr.

(** A scripted transport for examples: [read] hands out the pending input,
    [write] records the bytes and reports all of them written. *)
Record script : Type := mkScript {
  pending : list byte;
  written : list (list byte)
}.

#[export] Instance script_serial : Serial script := {
  read size s :=
    (firstn (Z.to_nat size) (pending s),
     mkScript (skipn (Z.to_nat size) (pending s)) (written s));
  write bs s := (len bs, mkScript (pending s) (written s ++ [bs]))
}.

End RR10.

(** ** The view of the parameters: [class Message.ParametersArray(bytearray)] *)

Module ParametersArray.

(** A view object: its own bytes, and whether it is the very object its
    message keeps in [_parameters].  When it is, the attribute of the
    message and the view are one object with one content. *)
Record t : Type := mk {
  content : list byte;
  kept : bool
}.

(** What a method of a view runs on: the view ([self]) and the message it
    refers to ([self.message]). *)
Record state : Type := mkState {
  view : t;
  message : Message.t
}.

Inductive outcome (A : Type) : Type :=
| Return (a : A) (s : state)
| Raise (e : exn) (s : state).
Arguments Return {A} a s.
Arguments Raise {A} e s.

Definition method (A : Type) : Type := state -> outcome A.

(** The subscripts and values of an assignment [view[key] = value]: an
    integer subscript or a slice [start:stop], an [int] or a bytes-like
    value. *)
Inductive key : Type :=
| Index (i : Z)
| Slice (start stop : option Z).

Inductive item : Type :=
| Int (z : Z)
| Bytes (bs : list byte).

(** [ParametersArray(message, args)]: a new view with the bytes [args];
    no message keeps it yet. *)
Definition __init__ (message : Message.t) (args : list byte) : state :=
  mkState (mk args false) message.

(** [view = message.parameters]: the object the property returns is the
    one the message keeps from then on.  The getter has no raising
    path. *)
Definition of_message (m : Message.t) : state :=
  match Message.parameters m with
  | Message.Return p m' => mkState (mk p true) m'
  | Message.Raise _ m' => mkState (mk [] false) m'
  end.

(** The bytes of the view become [bs]; the message sees the change when
    the view is the object it keeps. *)
Definition store (bs : list byte) (s : state) : state :=
  mkState (mk bs (kept (view s)))
          (if kept (view s)
           then Message.mk (Message.data (message s)) (Some bs)
           else message s).

(** [bytearray.__setitem__(key, value)] on the bytes of the view. *)
Definition bytearray_setitem (k : key) (x : item) (bs : list byte)
    : result (list byte) :=
  match k, x with
  | Index i, Int z =>
      match byte_of_int z with
      | None => Err ValueError
      | Some b =>
          match item_index (len bs) i with
          | Some n => Ok (list_update bs n b)
          | None => Err IndexError
          end
      end
  | Index _, Bytes _ => Err TypeError
  | Slice start stop, Bytes v => Ok (slice_set bs start stop v)
  | Slice _ _, Int _ => Err TypeError
  end.

(** [bytearray.append(value)] on the bytes of the view. *)
Definition bytearray_append (x : item) (bs : list byte) : result (list byte) :=
  match x with
  | Int z =>
      match byte_of_int z with
      | None => Err ValueError
      | Some b => Ok (bs ++ [b])
      end
  | Bytes _ => Err TypeError
  end.

(** [self.message.parameters = self] *)
Definition update_message : method unit :=
  fun s =>
    match Message.set_parameters (Message.ParametersArray (content (view s)))
                                 (message s) with
    | Message.Return _ m' => Return tt (mkState (view s) m')
    | Message.Raise e m' => Raise e (mkState (view s) m')
    end.

Definition __setitem__ (k : key) (x : item) : method unit :=
  fun s =>
    match bytearray_setitem k x (content (view s)) with
    | Err e => Raise e s
    | Ok bs => update_message (store bs s)
    end.

Definition append (x : item) : method unit :=
  fun s =>
    match bytearray_append x (content (view s)) with
    | Err e => Raise e s
    | Ok bs => update_message (store bs s)
    end.

End ParametersArray.

(** ** Frames

    What the properties below are stated with: the consistency of the
    stored checksum, and the objects the class hands out. *)

(** [int.from_bytes(c, 'little')] *)
Fixpoint from_little (c : list byte) : Z :=
  match c with
  | [] => 0
  | x :: c' => int_of_byte x + 256 * from_little c'
  end.

(** The stored checksum [self[-2:]] is two bytes that hold, low byte
    first, the sum of the other bytes [self[:-2]] modulo 65536. *)
Definition checksum_consistent (self : Message.t) : Prop :=
  let stored := slice_get (Message.data self) (Some Message.INDEX_CHECKSUM) None in
  List.length stored = 2%nat
  /\ from_little stored
     = sum (slice_get (Message.data self) None (Some Message.INDEX_CHECKSUM))
       mod 65536.

(** The frames: what a constructor call returned, and what such an object
    has become after calls of its setters and of the [parameters] getter
    (which stores the view it returns) that returned. *)
Inductive Frame : Message.t -> Prop :=
| Frame_new c parameters self :
    Message.new c parameters = Ok self -> Frame self
| Frame_from_bytes raw self :
    Message.from_bytes raw = Ok self -> Frame self
| Frame_set_command c self self' :
    Frame self ->
    Message.set_command c self = Message.Return tt self' -> Frame self'
| Frame_set_parameters x self self' :
    Frame self ->
    Message.set_parameters x self = Message.Return tt self' -> Frame self'
| Frame_parameters view self self' :
    Frame self ->
    Message.parameters self = Message.Return view self' -> Frame self'.

(** The size of a frame and the consistency of its checksum. *)
Definition frame_invariant (self : Message.t) : Prop :=
  3 <= len (Message.data self) <= 255 /\ checksum_consistent self.

(** The [parameters] region of a message, [self[2:-2]]. *)
Definition payload (self : Message.t) : list byte :=
  slice_get (Message.data self) (Some Message.INDEX_PARAMETERS)
            (Some Message.INDEX_CHECKSUM).

(** A view in step with its message: it is the object the message keeps,
    its bytes are the parameters region of the message, and the message
    has the size and the checksum of a frame. *)
Definition synced (s : ParametersArray.state) : Prop :=
  ParametersArray.kept (ParametersArray.view s) = true
  /\ Message._parameters (ParametersArray.message s)
     = Some (ParametersArray.content (ParametersArray.view s))
  /\ payload (ParametersArray.message s)
     = ParametersArray.content (ParametersArray.view s)
  /\ frame_invariant (ParametersArray.message s).

(** * Properties *)

(** ** Bytes, sums and the two-byte encoding *)

Lemma int_of_byte_range (b : byte) : 0 <= int_of_byte b <= 255.
Proof.
  unfold int_of_byte. pose proof (Byte.to_N_bounded b). lia.
Qed.

Lemma byte_of_int_of_byte (b : byte) : byte_of_int (int_of_byte b) = Some b.
Proof.
  unfold byte_of_int, int_of_byte.
  destruct (Z.ltb_spec (Z.of_N (Byte.to_N b)) 0); [lia|].
  rewrite N2Z.id. apply Byte.of_to_N.
Qed.

Lemma byte_of_int_Some (z : Z) (b : byte) :
  byte_of_int z = Some b -> int_of_byte b = z.
Proof.
  unfold byte_of_int, int_of_byte.
  destruct (Z.ltb_spec z 0); [discriminate|].
  intros E. apply Byte.to_of_N in E. rewrite E. lia.
Qed.

Lemma byte_of_int_in_range (z : Z) :
  0 <= z <= 255 -> exists b, byte_of_int z = Some b /\ int_of_byte b = z.
Proof.
  intros Hz. destruct (byte_of_int z) as [b|] eqn:E.
  - exists b. split; [reflexivity | now apply byte_of_int_Some].
  - exfalso. unfold byte_of_int in E.
    destruct (Z.ltb_spec z 0); [lia|].
    apply Byte.of_N_None_iff in E. lia.
Qed.

Lemma byte_of_int_None (z : Z) : byte_of_int z = None -> z < 0 \/ 255 < z.
Proof.
  intros E. destruct (Z.le_gt_cases 0 z); [|lia].
  destruct (Z.le_gt_cases z 255); [|lia].
  destruct (byte_of_int_in_range z) as [b [Hb _]]; [lia | congruence].
Qed.

Lemma int_of_byte_inj (a b : byte) : int_of_byte a = int_of_byte b -> a = b.
Proof.
  intros E. pose proof (byte_of_int_of_byte a) as Ha.
  rewrite E, byte_of_int_of_byte in Ha. congruence.
Qed.

Lemma bytes_eqb_eq (a b : list byte) : bytes_eqb a b = true <-> a = b.
Proof.
  revert b. induction a as [|x a IH]; intros [|y b]; simpl;
    try (split; [discriminate | discriminate]); [tauto|].
  rewrite andb_true_iff, IH. split.
  - intros [E ->]. apply Byte.byte_dec_bl in E. now subst.
  - intros E. injection E as -> ->. split; [now apply Byte.byte_dec_lb | reflexivity].
Qed.

Lemma bytes_eqb_refl (a : list byte) : bytes_eqb a a = true.
Proof. now apply bytes_eqb_eq. Qed.

Lemma bytes_eqb_neq (a b : list byte) : bytes_eqb a b = false <-> a <> b.
Proof.
  split.
  - intros E H. apply bytes_eqb_eq in H. congruence.
  - intros H. destruct (bytes_eqb a b) eqn:E; [|reflexivity].
    apply bytes_eqb_eq in E. contradiction.
Qed.

Lemma len_app {A : Type} (l1 l2 : list A) : len (l1 ++ l2) = len l1 + len l2.
Proof. unfold len. rewrite length_app. lia. Qed.

Lemma len_cons {A : Type} (x : A) (l : list A) : len (x :: l) = 1 + len l.
Proof. unfold len. simpl List.length. lia. Qed.

Lemma len_nonneg {A : Type} (l : list A) : 0 <= len l.
Proof. unfold len. lia. Qed.

Lemma fold_sum_shift (l : list byte) (a : Z) :
  fold_left (fun acc b => acc + int_of_byte b) l a = a + sum l.
Proof.
  unfold sum. revert a. induction l as [|x l IH]; intros a; simpl.
  - lia.
  - rewrite (IH (a + int_of_byte x)), (IH (int_of_byte x)). lia.
Qed.

Lemma sum_nil : sum [] = 0.
Proof. reflexivity. Qed.

Lemma sum_cons (x : byte) (l : list byte) : sum (x :: l) = int_of_byte x + sum l.
Proof. unfold sum at 1. simpl. now rewrite fold_sum_shift. Qed.

Lemma sum_app (l1 l2 : list byte) : sum (l1 ++ l2) = sum l1 + sum l2.
Proof.
  induction l1 as [|x l1 IH]; cbn [app].
  - rewrite sum_nil. lia.
  - rewrite !sum_cons, IH. lia.
Qed.

Lemma sum_repeat_zero (n : nat) : sum (repeat x00 n) = 0.
Proof.
  induction n as [|n IH]; [reflexivity|].
  simpl repeat. rewrite sum_cons, IH. reflexivity.
Qed.

(** A sum of bytes is bounded by 255 per byte. *)
Lemma sum_bounds (l : list byte) : 0 <= sum l <= 255 * len l.
Proof.
  induction l as [|x l IH].
  - rewrite sum_nil. unfold len. cbn [List.length]. lia.
  - rewrite sum_cons, len_cons. pose proof (int_of_byte_range x). lia.
Qed.

(** The encoding succeeds exactly on [0 .. 65535], and then the two bytes
    are the number in base 256, low byte first. *)
Lemma to_bytes_2_little_Ok (n : Z) :
  0 <= n <= 65535 ->
  exists lo hi, to_bytes_2_little n = Ok [lo; hi]
                /\ int_of_byte lo = n mod 256 /\ int_of_byte hi = n / 256.
Proof.
  intros Hn. unfold to_bytes_2_little.
  destruct (Z.ltb_spec n 0); [lia|].
  destruct (Z.ltb_spec 65535 n); [lia|]. simpl orb.
  destruct (byte_of_int_in_range (n mod 256)) as [lo [Elo Hlo]].
  { pose proof (Z.mod_pos_bound n 256). lia. }
  destruct (byte_of_int_in_range (n / 256)) as [hi [Ehi Hhi]].
  { split; [apply Z.div_pos; lia|].
    assert (n / 256 < 256) by (apply Z.div_lt_upper_bound; lia). lia. }
  rewrite Elo, Ehi. now exists lo, hi.
Qed.

Lemma to_bytes_2_little_Err (n : Z) :
  n < 0 \/ 65535 < n -> to_bytes_2_little n = Err OverflowError.
Proof.
  intros Hn. unfold to_bytes_2_little.
  destruct (Z.ltb_spec n 0); [reflexivity|].
  destruct (Z.ltb_spec 65535 n); [reflexivity|]. lia.
Qed.

Lemma to_bytes_2_little_inv (n : Z) (c : list byte) :
  to_bytes_2_little n = Ok c ->
  0 <= n <= 65535
  /\ exists lo hi, c = [lo; hi] /\ int_of_byte lo + 256 * int_of_byte hi = n.
Proof.
  intros E.
  assert (Hn : 0 <= n <= 65535).
  { destruct (Z.le_gt_cases 0 n); [destruct (Z.le_gt_cases n 65535)|].
    - lia.
    - rewrite to_bytes_2_little_Err in E by lia. discriminate.
    - rewrite to_bytes_2_little_Err in E by lia. discriminate. }
  split; [exact Hn|].
  destruct (to_bytes_2_little_Ok n Hn) as [lo [hi [E' [Hlo Hhi]]]].
  exists lo, hi. split; [congruence|].
  rewrite Hlo, Hhi. pose proof (Z.div_mod n 256). lia.
Qed.

(** ** The slices of the frame layout, in terms of [firstn] and [skipn] *)

Section Slices.
Context {A : Type}.
Implicit Types l v : list A.

(** [l[:-2]] *)
Lemma slice_get_body l : slice_get l None (Some (-2)) = firstn (List.length l - 2) l.
Proof.
  unfold slice_get, slice_bounds, adjust_index, len.
  change (-2 <? 0) with true. cbv iota.
  change (Z.to_nat 0) with 0%nat. cbn [skipn].
  f_equal. lia.
Qed.

(** [l[-2:]] *)
Lemma slice_get_tail l : slice_get l (Some (-2)) None = skipn (List.length l - 2) l.
Proof.
  unfold slice_get, slice_bounds, adjust_index, len.
  change (-2 <? 0) with true. cbv iota.
  replace (Z.to_nat (Z.max 0 (-2 + Z.of_nat (List.length l))))
    with (List.length l - 2)%nat by lia.
  apply firstn_all2. rewrite length_skipn. lia.
Qed.

(** [l[-2:] = v] *)
Lemma slice_set_tail l v :
  slice_set l (Some (-2)) None v = firstn (List.length l - 2) l ++ v.
Proof.
  unfold slice_set, slice_bounds, adjust_index, len.
  change (-2 <? 0) with true. cbv iota.
  replace (Z.to_nat (Z.max 0 (-2 + Z.of_nat (List.length l))))
    with (List.length l - 2)%nat by lia.
  rewrite (skipn_all2 l) by lia. now rewrite app_nil_r.
Qed.

(** [l[2:-2]] *)
Lemma slice_get_params l :
  slice_get l (Some 2) (Some (-2)) = firstn (List.length l - 4) (skipn 2 l).
Proof.
  unfold slice_get, slice_bounds, adjust_index, len.
  change (-2 <? 0) with true. change (2 <? 0) with false. cbv iota.
  destruct (Nat.le_gt_cases 2 (List.length l)) as [H|H].
  - replace (Z.to_nat (Z.min 2 (Z.of_nat (List.length l)))) with 2%nat by lia.
    f_equal. lia.
  - rewrite (skipn_all2 (n := 2)) by lia.
    rewrite (skipn_all2 l) by lia. now rewrite !firstn_nil.
Qed.

(** [l[2:-2] = v] *)
Lemma slice_set_params l v :
  slice_set l (Some 2) (Some (-2)) v
  = firstn 2 l ++ v ++ skipn (Nat.max 2 (List.length l - 2)) l.
Proof.
  unfold slice_set, slice_bounds, adjust_index, len.
  change (-2 <? 0) with true. change (2 <? 0) with false. cbv iota.
  destruct (Nat.le_gt_cases 2 (List.length l)) as [H|H].
  - replace (Z.to_nat (Z.min 2 (Z.of_nat (List.length l)))) with 2%nat by lia.
    do 3 f_equal. lia.
  - rewrite (skipn_all2 (n := Nat.max _ _)) by lia.
    rewrite (skipn_all2 l) by lia.
    rewrite (firstn_all2 (n := 2)) by lia.
    rewrite (firstn_all2 l) by lia. reflexivity.
Qed.

Lemma list_update_length l k (x : A) :
  List.length (list_update l k x) = List.length l.
Proof.
  revert k. induction l as [|y l IH]; intros [|k]; simpl; auto.
Qed.

(** Beyond the updated position nothing changes. *)
Lemma skipn_list_update l k n (x : A) :
  (k < n)%nat -> skipn n (list_update l k x) = skipn n l.
Proof.
  revert k n. induction l as [|y l IH]; intros k n H.
  - now destruct k.
  - destruct n as [|n]; [lia|]. destruct k as [|k]; simpl.
    + reflexivity.
    + apply IH. lia.
Qed.
End Slices.

(** ** What the methods compute *)

Section Methods.
Import Message.

Lemma bind_Return {A B : Type} (m : method A) (k : A -> method B) self b self' :
  bind m k self = Return b self' ->
  exists a self1, m self = Return a self1 /\ k a self1 = Return b self'.
Proof.
  unfold bind. destruct (m self) as [a self1|e self1]; [|discriminate].
  intros E. now exists a, self1.
Qed.

Lemma bind_Raise {A B : Type} (m : method A) (k : A -> method B) self e self' :
  bind m k self = Raise e self' ->
  m self = Raise e self'
  \/ exists a self1, m self = Return a self1 /\ k a self1 = Raise e self'.
Proof.
  unfold bind. destruct (m self) as [a self1|e1 self1]; intros E.
  - right. now exists a, self1.
  - left. now injection E as -> ->.
Qed.

(** [get_checksum] encodes the sum of all bytes but the last two, and
    leaves the object alone. *)
Lemma get_checksum_eq self :
  get_checksum self
  = match to_bytes_2_little (sum (firstn (List.length (data self) - 2) (data self))) with
    | Ok c => Return c self
    | Err e => Raise e self
    end.
Proof.
  unfold get_checksum, bind, getslice, INDEX_CHECKSUM.
  rewrite slice_get_body. now destruct (to_bytes_2_little _).
Qed.

(** [_update_checksum] replaces the last two bytes by that encoding. *)
Lemma update_checksum_eq self :
  _update_checksum self
  = match to_bytes_2_little (sum (firstn (List.length (data self) - 2) (data self))) with
    | Ok c => Return tt (mk (firstn (List.length (data self) - 2) (data self) ++ c)
                            (_parameters self))
    | Err e => Raise e self
    end.
Proof.
  unfold _update_checksum. unfold bind at 1. rewrite get_checksum_eq.
  destruct (to_bytes_2_little _) as [c|e]; [|reflexivity].
  unfold setslice, INDEX_CHECKSUM. now rewrite slice_set_tail.
Qed.

(** The registered command values. *)
Lemma known_command_iff c :
  known_command c = true
  <-> In c [1; 2; 3; 6; 7; 8; 9; 8; 15; 15; 10; 11; 12; 13; 14; 32; 33].
Proof.
  unfold known_command. rewrite existsb_exists.
  change (map snd get_commands)
    with [1; 2; 3; 6; 7; 8; 9; 8; 15; 15; 10; 11; 12; 13; 14; 32; 33].
  split.
  - intros [x [Hx E]]. apply Z.eqb_eq in E. now subst.
  - intros H. exists c. split; [exact H | apply Z.eqb_refl].
Qed.

Lemma known_command_range c : known_command c = true -> 1 <= c <= 33.
Proof.
  rewrite known_command_iff. cbn [In]. lia.
Qed.

Lemma known_command_byte c :
  known_command c = true -> exists C, byte_of_int c = Some C /\ int_of_byte C = c.
Proof.
  intros H. apply byte_of_int_in_range. apply known_command_range in H. lia.
Qed.

(** [set_command] on a registered command. *)
Lemma set_command_eq c C self :
  known_command c = true -> byte_of_int c = Some C ->
  set_command c self
  = if len (data self) <=? 1 then Raise IndexError self
    else _update_checksum (mk (list_update (data self) 1 C) (_parameters self)).
Proof.
  intros Hk HC. unfold set_command. rewrite Hk. cbn [negb].
  unfold bind at 1. unfold setitem. rewrite HC.
  unfold item_index, INDEX_COMMAND. change (1 <? 0) with false. cbv iota.
  cbn [orb]. change (Z.to_nat 1) with 1%nat.
  now destruct (len (data self) <=? 1).
Qed.

Lemma set_command_unknown c self :
  known_command c = false -> set_command c self = Raise (InvalidCommand c) self.
Proof.
  intros Hk. unfold set_command. now rewrite Hk.
Qed.

(** The resizing step of the [parameters] setter: the object grows to
    [k] bytes by zero bytes at its end when it is shorter, stays as it is
    when it already has [k] bytes, and the step raises when it is longer. *)
Lemma resize_eq k self :
  (if negb (k =? len (data self))
   then bind (lift (bytearray_count (k - len (data self)))) (fun z => iadd z)
   else ret tt) self
  = if k <? len (data self) then Raise ValueError self
    else Return tt (mk (data self ++ repeat x00 (Z.to_nat (k - len (data self))))
                       (_parameters self)).
Proof.
  destruct (Z.eqb_spec k (len (data self))) as [E|E]; cbn [negb].
  - rewrite E, Z.ltb_irrefl, Z.sub_diag. cbn [Z.to_nat repeat].
    rewrite app_nil_r. now destruct self.
  - unfold bind, lift, bytearray_count.
    destruct (Z.ltb_spec k (len (data self))) as [H|H].
    + destruct (Z.ltb_spec (k - len (data self)) 0); [reflexivity | lia].
    + destruct (Z.ltb_spec (k - len (data self)) 0); [lia | reflexivity].
Qed.

Lemma nth_1_padded (l : list byte) (n : nat) :
  nth 1 (l ++ repeat x00 n) x00 = nth 1 l x00.
Proof.
  destruct l as [|a [|b l]]; cbn [app nth].
  - destruct n as [|[|n]]; reflexivity.
  - destruct n as [|n]; reflexivity.
  - reflexivity.
Qed.

Lemma item_index_0 n : 0 < n -> item_index n INDEX_LENGTH = Some 0%nat.
Proof.
  intros H. unfold item_index, INDEX_LENGTH. cbv zeta.
  change (0 <? 0) with false. cbv iota. cbn [orb].
  destruct (Z.leb_spec n 0); [lia | reflexivity].
Qed.

Lemma item_index_1 n : item_index n INDEX_COMMAND = if n <=? 1 then None else Some 1%nat.
Proof.
  unfold item_index, INDEX_COMMAND. cbv zeta.
  change (1 <? 0) with false. cbv iota. cbn [orb]. reflexivity.
Qed.

(** The [parameters] setter once the object has the right size: the two
    head bytes and the payload [v], then the checksum of what precedes
    it; the first byte becomes the length. *)
Lemma set_parameters_sized {B : Type} (a0 a1 : byte) (rest v : list byte)
    view L lo hi (k : unit -> method B) :
  List.length rest = (List.length v + 2)%nat ->
  byte_of_int (len v + 4) = Some L ->
  to_bytes_2_little (int_of_byte L + int_of_byte a1 + sum v) = Ok [lo; hi] ->
  bind (setslice (Some INDEX_PARAMETERS) (Some INDEX_CHECKSUM) v)
       (fun _ => bind _update_length k) (mk (a0 :: a1 :: rest) view)
  = k tt (mk (L :: a1 :: v ++ [lo; hi]) view).
Proof.
  intros Hrest EL Ecs.
  unfold bind at 1. unfold setslice, INDEX_PARAMETERS, INDEX_CHECKSUM.
  cbn [data _parameters]. rewrite slice_set_params.
  cbn [List.length]. rewrite Hrest.
  replace (Nat.max 2 (S (S (List.length v + 2)) - 2)) with (S (S (List.length v))) by lia.
  cbn [firstn skipn app].
  set (tail2 := skipn (List.length v) rest).
  assert (Htail : List.length tail2 = 2%nat).
  { unfold tail2. rewrite length_skipn. lia. }
  unfold bind at 1. unfold _update_length. unfold bind at 1. unfold len_self.
  cbn [data _parameters].
  assert (Hlen : len (a0 :: a1 :: v ++ tail2) = len v + 4).
  { rewrite !len_cons, len_app. unfold len at 2. rewrite Htail. lia. }
  rewrite Hlen. unfold bind at 1. unfold setitem. rewrite EL.
  cbn [data _parameters]. rewrite Hlen.
  rewrite item_index_0 by (pose proof (len_nonneg v); lia).
  cbn [list_update]. cbv beta iota.
  rewrite update_checksum_eq. cbn [data _parameters List.length].
  rewrite length_app, Htail.
  replace (S (S (List.length v + 2)) - 2)%nat with (S (S (List.length v))) by lia.
  cbn [firstn]. rewrite firstn_app, firstn_all, Nat.sub_diag. cbn [firstn].
  rewrite app_nil_r, !sum_cons, Z.add_assoc, Ecs. reflexivity.
Qed.

Lemma set_parameters_not_bytearray self :
  set_parameters NotBytearray self = Raise NotABytearray self.
Proof. reflexivity. Qed.

Lemma set_parameters_too_many x v self :
  is_bytearray x = Some v -> 251 < len v ->
  set_parameters x self = Raise TooManyParameters self.
Proof.
  intros Hx Hv. unfold set_parameters. rewrite Hx.
  destruct (Z.ltb_spec MAX_PARAMETERS (len v)) as [H|H]; [reflexivity|].
  unfold MAX_PARAMETERS in H. lia.
Qed.

(** A payload shorter than the current one: the padding
    [bytearray(negative)] raises before anything is written. *)
Lemma set_parameters_shrink x v self :
  is_bytearray x = Some v -> len v <= 251 -> len v + 4 < len (data self) ->
  set_parameters x self = Raise ValueError self.
Proof.
  intros Hx Hv Hn. unfold set_parameters. rewrite Hx.
  destruct (Z.ltb_spec MAX_PARAMETERS (len v)) as [H|H];
    [unfold MAX_PARAMETERS in H; lia|].
  unfold bind at 1. unfold len_self. unfold bind at 1.
  rewrite resize_eq. unfold MIN_LENGTH.
  destruct (Z.ltb_spec (len v + 4) (len (data self))); [reflexivity | lia].
Qed.

(** A payload that fits and is not shorter than the current one: the
    frame is rebuilt around it, keeping the command byte (a zero byte when
    the object had none). *)
Lemma set_parameters_grow x v self :
  is_bytearray x = Some v -> len v <= 251 -> len (data self) <= len v + 4 ->
  exists L lo hi,
    byte_of_int (len v + 4) = Some L
    /\ to_bytes_2_little
         (int_of_byte L + int_of_byte (nth 1 (data self) x00) + sum v)
       = Ok [lo; hi]
    /\ set_parameters x self
       = Return tt (mk (L :: nth 1 (data self) x00 :: v ++ [lo; hi])
                       (if is_ParametersArray x then _parameters self
                        else Some v)).
Proof.
  intros Hx Hv Hn.
  destruct (byte_of_int_in_range (len v + 4)) as [L [EL HL]].
  { pose proof (len_nonneg v). lia. }
  set (a1 := nth 1 (data self) x00).
  destruct (to_bytes_2_little_Ok (int_of_byte L + int_of_byte a1 + sum v))
    as [lo [hi [Ecs _]]].
  { pose proof (sum_bounds v). pose proof (int_of_byte_range a1).
    pose proof (int_of_byte_range L). lia. }
  exists L, lo, hi. split; [exact EL|]. split; [exact Ecs|].
  unfold set_parameters. rewrite Hx.
  destruct (Z.ltb_spec MAX_PARAMETERS (len v)) as [H|H];
    [unfold MAX_PARAMETERS in H; lia|].
  unfold bind at 1. unfold len_self. unfold bind at 1.
  rewrite resize_eq. unfold MIN_LENGTH.
  destruct (Z.ltb_spec (len v + 4) (len (data self))) as [H'|H']; [lia|].
  set (pad := Z.to_nat (len v + 4 - len (data self))).
  assert (Hlen : List.length (data self ++ repeat x00 pad)
                 = (List.length v + 4)%nat).
  { rewrite length_app, repeat_length. unfold pad, len in *. lia. }
  assert (Ha1 : nth 1 (data self ++ repeat x00 pad) x00 = a1)
    by apply nth_1_padded.
  destruct (data self ++ repeat x00 pad) as [|b0 [|b1 rest]];
    cbn [List.length] in Hlen; try lia.
  cbn [nth] in Ha1. subst b1.
  rewrite (set_parameters_sized b0 a1 rest v _ L lo hi) by (lia || assumption).
  destruct x as [w|w|]; reflexivity.
Qed.

(** Whatever the setter returned on, it was on a payload that fits, and
    the frame has the shape above. *)
Lemma set_parameters_Return x self self' :
  set_parameters x self = Return tt self' ->
  exists v L lo hi,
    is_bytearray x = Some v /\ len v <= 251 /\ len (data self) <= len v + 4
    /\ byte_of_int (len v + 4) = Some L
    /\ to_bytes_2_little
         (int_of_byte L + int_of_byte (nth 1 (data self) x00) + sum v)
       = Ok [lo; hi]
    /\ self' = mk (L :: nth 1 (data self) x00 :: v ++ [lo; hi])
                  (if is_ParametersArray x then _parameters self else Some v).
Proof.
  intros E. destruct (is_bytearray x) as [v|] eqn:Hx.
  - destruct (Z.le_gt_cases (len v) 251) as [Hv|Hv].
    + destruct (Z.le_gt_cases (len (data self)) (len v + 4)) as [Hn|Hn].
      * destruct (set_parameters_grow x v self Hx Hv Hn)
          as [L [lo [hi [EL [Ecs Eset]]]]].
        exists v, L, lo, hi. rewrite Eset in E. injection E as <-.
        repeat split; assumption || reflexivity.
      * rewrite (set_parameters_shrink x v self Hx Hv) in E by lia. discriminate.
    + rewrite (set_parameters_too_many x v self Hx) in E by lia. discriminate.
  - destruct x; try discriminate Hx. discriminate E.
Qed.

(** When the setter raises, nothing was written. *)
Lemma set_parameters_Raise x self e self' :
  set_parameters x self = Raise e self' ->
  self' = self /\ (e = NotABytearray \/ e = TooManyParameters \/ e = ValueError).
Proof.
  intros E. destruct (is_bytearray x) as [v|] eqn:Hx.
  - destruct (Z.le_gt_cases (len v) 251) as [Hv|Hv].
    + destruct (Z.le_gt_cases (len (data self)) (len v + 4)) as [Hn|Hn].
      * destruct (set_parameters_grow x v self Hx Hv Hn)
          as [L [lo [hi [EL [Ecs Eset]]]]].
        rewrite Eset in E. discriminate.
      * rewrite (set_parameters_shrink x v self Hx Hv) in E by lia.
        injection E as <- <-. auto.
    + rewrite (set_parameters_too_many x v self Hx) in E by lia.
      injection E as <- <-. auto.
  - destruct x; try discriminate Hx. injection E as <- <-. auto.
Qed.

(** On an object of 2 to 257 bytes, [set_command] with a registered
    command returns: the sum of at most 255 bytes fits in two bytes. *)
Lemma set_command_Return_ok c C self :
  known_command c = true -> byte_of_int c = Some C ->
  2 <= len (data self) <= 257 ->
  let body := firstn (List.length (data self) - 2) (list_update (data self) 1 C) in
  exists lo hi,
    to_bytes_2_little (sum body) = Ok [lo; hi]
    /\ set_command c self = Return tt (mk (body ++ [lo; hi]) (_parameters self)).
Proof.
  intros Hk HC Hn body.
  destruct (to_bytes_2_little_Ok (sum body)) as [lo [hi [Ecs _]]].
  { pose proof (sum_bounds body) as Hs.
    assert (len body <= 255).
    { unfold body, len in *. rewrite length_firstn, list_update_length. lia. }
    lia. }
  exists lo, hi. split; [exact Ecs|].
  rewrite (set_command_eq c C self Hk HC).
  destruct (Z.leb_spec (len (data self)) 1); [lia|].
  rewrite update_checksum_eq. cbn [data _parameters].
  rewrite list_update_length. fold body. now rewrite Ecs.
Qed.

Lemma set_command_Raise c self e self' :
  len (data self) <= 257 ->
  set_command c self = Raise e self' ->
  self' = self /\ (e = InvalidCommand c \/ e = IndexError).
Proof.
  intros Hn E. destruct (known_command c) eqn:Hk.
  - destruct (known_command_byte c Hk) as [C [HC _]].
    destruct (Z.le_gt_cases 2 (len (data self))) as [H2|H2].
    + destruct (set_command_Return_ok c C self Hk HC) as [lo [hi [_ Eset]]];
        [lia|]. rewrite Eset in E. discriminate.
    + rewrite (set_command_eq c C self Hk HC) in E.
      destruct (Z.leb_spec (len (data self)) 1); [|lia].
      injection E as <- <-. auto.
  - rewrite (set_command_unknown c self Hk) in E. injection E as <- <-. auto.
Qed.

Lemma set_command_Return c self self' :
  set_command c self = Return tt self' ->
  known_command c = true /\ 2 <= len (data self).
Proof.
  intros E. destruct (known_command c) eqn:Hk.
  - split; [reflexivity|].
    destruct (known_command_byte c Hk) as [C [HC _]].
    rewrite (set_command_eq c C self Hk HC) in E.
    destruct (Z.leb_spec (len (data self)) 1); [discriminate | lia].
  - rewrite (set_command_unknown c self Hk) in E. discriminate.
Qed.

(** The [parameters] getter never touches the bytes. *)
Lemma parameters_data self view self' :
  parameters self = Return view self' -> data self' = data self.
Proof.
  unfold parameters.
  destruct (_parameters self) as [[|b w]|]; cbn; intros E;
    injection E as <- <-; reflexivity.
Qed.

(** On an object nobody asked the view of, the getter returns
    [self[2:-2]]. *)
Lemma parameters_fresh (d : list byte) :
  parameters (mk d None)
  = Return (firstn (List.length d - 4) (skipn 2 d))
           (mk d (Some (firstn (List.length d - 4) (skipn 2 d)))).
Proof.
  unfold parameters. cbn [_parameters].
  unfold bind, getslice, set_view, ret, INDEX_PARAMETERS, INDEX_CHECKSUM.
  cbn [data]. now rewrite slice_get_params.
Qed.

(** A body followed by the encoding of its sum is consistent. *)
Lemma consistent_shape (body : list byte) lo hi view :
  to_bytes_2_little (sum body) = Ok [lo; hi] ->
  checksum_consistent (mk (body ++ [lo; hi]) view).
Proof.
  intros Ecs. apply to_bytes_2_little_inv in Ecs as [Hs [lo' [hi' [E Hsum]]]].
  injection E as <- <-.
  unfold checksum_consistent, INDEX_CHECKSUM. cbn [data].
  rewrite slice_get_tail, slice_get_body, length_app. cbn [List.length].
  replace (List.length body + 2 - 2)%nat with (List.length body) by lia.
  rewrite skipn_app, skipn_all, Nat.sub_diag. cbn [skipn app].
  rewrite firstn_app, firstn_all, Nat.sub_diag. cbn [firstn]. rewrite app_nil_r.
  split; [reflexivity|]. cbn [from_little].
  rewrite Z.mod_small by lia. lia.
Qed.

Lemma bytearray_of_ints_bytes (v : list byte) :
  bytearray_of_ints (map int_of_byte v) = Ok v.
Proof.
  induction v as [|b v IH]; cbn [map bytearray_of_ints]; [reflexivity|].
  now rewrite byte_of_int_of_byte, IH.
Qed.

Lemma bytearray_of_ints_Ok (t : list Z) (v : list byte) :
  bytearray_of_ints t = Ok v -> t = map int_of_byte v.
Proof.
  revert v. induction t as [|z t IH]; intros v; cbn [bytearray_of_ints].
  - intros E. injection E as <-. reflexivity.
  - destruct (byte_of_int z) as [b|] eqn:Eb; [|discriminate].
    destruct (bytearray_of_ints t) as [w|e]; [|discriminate].
    intros E. injection E as <-. cbn [map].
    now rewrite (byte_of_int_Some z b Eb), <- (IH w).
Qed.

Lemma len_map {A B : Type} (f : A -> B) (l : list A) : len (map f l) = len l.
Proof. unfold len. now rewrite length_map. Qed.

(** On four bytes or more, the command byte survives the checksum
    update that follows its assignment. *)
Lemma nth_1_after_update (l t : list byte) (C : byte) :
  (4 <= List.length l)%nat ->
  nth 1 (firstn (List.length l - 2) (list_update l 1 C) ++ t) x00 = C.
Proof.
  destruct l as [|a [|b [|c [|d l]]]]; cbn [List.length]; try lia.
  intros _.
  replace (S (S (S (S (List.length l)))) - 2)%nat with (S (S (List.length l)))
    by lia.
  reflexivity.
Qed.

(** The constructor from a command and parameter bytes: length, command,
    parameters, then the checksum of these. *)
Lemma new_eq c (v : list byte) :
  known_command c = true -> len v <= 251 ->
  exists L C lo hi,
    byte_of_int (len v + 4) = Some L /\ byte_of_int c = Some C
    /\ to_bytes_2_little (int_of_byte L + int_of_byte C + sum v) = Ok [lo; hi]
    /\ new c (map int_of_byte v) = Ok (mk (L :: C :: v ++ [lo; hi]) (Some v)).
Proof.
  intros Hk Hv.
  destruct (known_command_byte c Hk) as [C [HC _]].
  set (zeros := repeat x00 (S (S (S (S (List.length v)))))).
  destruct (set_command_Return_ok c C (mk zeros None) Hk HC)
    as [lo0 [hi0 [_ Ecmd]]].
  { cbn [data]. unfold zeros, len in *. rewrite repeat_length. lia. }
  cbn [data _parameters] in Ecmd.
  set (self1 := mk (firstn (List.length zeros - 2) (list_update zeros 1 C)
                    ++ [lo0; hi0]) None) in Ecmd.
  assert (Hlen1 : len (data self1) = len v + 4).
  { unfold self1, len. cbn [data].
    rewrite length_app, length_firstn, list_update_length.
    unfold zeros. rewrite repeat_length. cbn [List.length]. lia. }
  assert (Hnth : nth 1 (data self1) x00 = C).
  { unfold self1. cbn [data]. apply nth_1_after_update.
    unfold zeros. rewrite repeat_length. lia. }
  destruct (set_parameters_grow (Bytearray v) v self1 eq_refl Hv)
    as [L [lo [hi [EL [Ecs Eset]]]]]; [lia|].
  rewrite Hnth in Ecs, Eset. cbn [is_ParametersArray] in Eset.
  exists L, C, lo, hi. repeat split; try assumption.
  unfold new, construct, __init__.
  unfold bind at 1. unfold lift at 1. unfold bytearray_count, MIN_LENGTH.
  rewrite len_map.
  destruct (Z.ltb_spec (4 + len v) 0); [pose proof (len_nonneg v); lia|].
  replace (Z.to_nat (4 + len v)) with (S (S (S (S (List.length v)))))
    by (unfold len; lia).
  fold zeros. unfold ret at 1. unfold bind at 1. unfold bytearray_init.
  cbn [_parameters]. unfold bind at 1. rewrite Ecmd.
  unfold bind at 1. rewrite bytearray_of_ints_bytes. unfold lift, ret.
  now rewrite Eset.
Qed.

(** The validating constructor, check by check. *)
Lemma from_bytes_eq (raw : list byte) :
  from_bytes raw
  = if 255 <? len raw then Err FrameTooLong
    else match raw with
         | [] => Err IndexError
         | b :: _ =>
             if negb (len raw =? int_of_byte b) then Err (LengthMismatch (len raw))
             else
               match to_bytes_2_little (sum (firstn (List.length raw - 2) raw)) with
               | Ok c =>
                   if bytes_eqb c (skipn (List.length raw - 2) raw)
                   then Ok (mk raw None) else Err (ChecksumMismatch c)
               | Err e => Err e
               end
         end.
Proof.
  unfold from_bytes, construct, __init__.
  unfold bind at 1. unfold bytearray_init. cbn [_parameters].
  unfold bind at 1. unfold len_self. cbn [data]. unfold MAX_LENGTH.
  destruct (255 <? len raw); [reflexivity|].
  unfold bind at 1. unfold length, getitem. cbn [data].
  destruct raw as [|b raw']; [reflexivity|].
  rewrite item_index_0 by (rewrite len_cons; pose proof (len_nonneg raw'); lia).
  cbn [nth].
  destruct (len (b :: raw') =? int_of_byte b); cbn [negb]; [|reflexivity].
  unfold bind at 1. rewrite get_checksum_eq. cbn [data].
  destruct (to_bytes_2_little _) as [c|e]; [|reflexivity].
  unfold bind at 1. unfold checksum, getslice, INDEX_CHECKSUM. cbn [data].
  rewrite slice_get_tail.
  now destruct (bytes_eqb c _).
Qed.

(** What a successful [new] went through: the registered command, the
    parameters as bytes, and the [parameters] setter as its last step. *)
Lemma new_Ok c (parameters : list Z) self :
  new c parameters = Ok self ->
  known_command c = true
  /\ exists v self1,
       parameters = map int_of_byte v
       /\ set_parameters (Bytearray v) self1 = Return tt self.
Proof.
  unfold new, construct.
  destruct (__init__ (Command c) parameters (mk [] None)) as [[] s|e s] eqn:E;
    [|discriminate].
  intros H. injection H as ->.
  unfold __init__ in E.
  apply bind_Return in E as [z [s1 [_ E]]].
  apply bind_Return in E as [[] [s2 [_ E]]].
  apply bind_Return in E as [[] [s3 [Ecmd E]]].
  apply bind_Return in E as [v [s4 [Ev E]]].
  split; [now apply set_command_Return in Ecmd|].
  exists v, s4. split; [|exact E].
  unfold lift in Ev.
  destruct (bytearray_of_ints parameters) as [w|e] eqn:Ew; [|discriminate].
  injection Ev as <- <-. now apply bytearray_of_ints_Ok.
Qed.

(** What the validating constructor accepted. *)
Lemma from_bytes_Ok (raw : list byte) self :
  from_bytes raw = Ok self ->
  self = mk raw None
  /\ 3 <= len raw <= 255
  /\ (exists b rest, raw = b :: rest /\ int_of_byte b = len raw)
  /\ exists lo hi,
       to_bytes_2_little (sum (firstn (List.length raw - 2) raw)) = Ok [lo; hi]
       /\ skipn (List.length raw - 2) raw = [lo; hi].
Proof.
  rewrite from_bytes_eq.
  destruct (Z.ltb_spec 255 (len raw)) as [H|Hmax]; [discriminate|].
  destruct raw as [|b rest] eqn:Eraw; [discriminate|]. rewrite <- Eraw in *.
  destruct (Z.eqb_spec (len raw) (int_of_byte b)) as [Hb|Hb];
    cbn [negb]; [|discriminate].
  destruct (to_bytes_2_little _) as [c|e] eqn:Ec; [|discriminate].
  destruct (bytes_eqb c _) eqn:Eeq; [|discriminate].
  intros E. injection E as <-. apply bytes_eqb_eq in Eeq.
  destruct (to_bytes_2_little_inv _ _ Ec) as [Hs [lo [hi [-> Hsum]]]].
  assert (Hlen : 3 <= len raw).
  { assert (H2 : List.length (skipn (List.length raw - 2) raw) = 2%nat)
      by now rewrite <- Eeq.
    rewrite length_skipn in H2.
    destruct (Z.le_gt_cases 3 (len raw)) as [|H3]; [assumption|].
    exfalso.
    assert (Hn : List.length raw = 2%nat) by (unfold len in H3; lia).
    rewrite Hn in Eeq, Ec, Hsum. cbn [Nat.sub skipn firstn] in Eeq, Ec, Hsum.
    rewrite sum_nil in Hsum.
    pose proof (int_of_byte_range lo). pose proof (int_of_byte_range hi).
    assert (int_of_byte lo = 0) by lia.
    rewrite Eraw in Eeq. injection Eeq as Elo _. subst b.
    unfold len in Hb. rewrite Hn in Hb. cbn in Hb. lia. }
  split; [reflexivity|]. split; [lia|]. split.
  - exists b, rest. split; [exact Eraw | congruence].
  - exists lo, hi. split; [reflexivity | now symmetry].
Qed.

Lemma checksum_consistent_data self self' :
  data self' = data self -> checksum_consistent self -> checksum_consistent self'.
Proof.
  unfold checksum_consistent. now intros ->.
Qed.

Lemma set_parameters_invariant x self self' :
  set_parameters x self = Return tt self' ->
  4 <= len (data self') <= 255 /\ checksum_consistent self'.
Proof.
  intros E.
  apply set_parameters_Return in E
    as [v [L [lo [hi [Hx [Hv [Hn [EL [Ecs ->]]]]]]]]].
  cbn [data]. split.
  - rewrite !len_cons, len_app. change (len [lo; hi]) with 2.
    pose proof (len_nonneg v). lia.
  - apply (consistent_shape (L :: nth 1 (data self) x00 :: v)).
    now rewrite !sum_cons, Z.add_assoc.
Qed.

Lemma set_command_invariant c self self' :
  2 <= len (data self) <= 255 ->
  set_command c self = Return tt self' ->
  len (data self') = len (data self) /\ checksum_consistent self'.
Proof.
  intros Hn E. destruct (set_command_Return c self self' E) as [Hk _].
  destruct (known_command_byte c Hk) as [C [HC _]].
  destruct (set_command_Return_ok c C self Hk HC) as [lo [hi [Ecs Eset]]];
    [lia|].
  rewrite Eset in E. injection E as <-. cbn [data]. split.
  - rewrite len_app. unfold len in *.
    rewrite length_firstn, list_update_length. cbn [List.length]. lia.
  - now apply consistent_shape.
Qed.

Lemma Frame_invariant self : Frame self -> frame_invariant self.
Proof.
  induction 1 as [c ps self E | raw self E | c self self' _ IH E
                 | x self self' _ IH E | view self self' _ IH E].
  - apply new_Ok in E as [_ [v [self1 [_ E]]]].
    apply set_parameters_invariant in E. unfold frame_invariant. split; [lia | tauto].
  - apply from_bytes_Ok in E as [-> [Hn [_ [lo [hi [Ecs Etail]]]]]].
    split; [exact Hn|].
    apply checksum_consistent_data
      with (self := mk (firstn (List.length raw - 2) raw ++ [lo; hi]) None).
    + cbn [data]. now rewrite <- Etail, firstn_skipn.
    + now apply consistent_shape.
  - destruct IH as [Hn _].
    apply set_command_invariant in E as [Hlen Hc]; [|lia].
    split; [lia | exact Hc].
  - apply set_parameters_invariant in E. unfold frame_invariant. split; [lia | tauto].
  - destruct IH as [Hn Hc]. apply parameters_data in E.
    split; [rewrite E; exact Hn | now apply (checksum_consistent_data self)].
Qed.

End Methods.

(** ** The frame *)

(** C1. Every frame, that is every object a constructor call ([new],
    [from_bytes]) returned and every object such a frame has become after
    completed calls of [set_command] and [set_parameters], stores as its
    last two bytes the sum of all its other bytes (length, command and
    parameters) modulo 65536, low byte first: no completed call leaves the
    command or the parameters inconsistent with the checksum. *)
Theorem checksum_invariant (self : Message.t) :
  Frame self -> checksum_consistent self.
Proof.
  intros H. apply Frame_invariant in H. exact (proj2 H).
Qed.

Lemma checksum_invariant_witness :
  Frame (Message.mk [x07; x02; x09; x08; x07; x21; x00] (Some [x09; x08; x07]))
  /\ checksum_consistent
       (Message.mk [x07; x02; x09; x08; x07; x21; x00] (Some [x09; x08; x07])).
Proof.
  assert (F : Frame (Message.mk [x07; x02; x09; x08; x07; x21; x00]
                                (Some [x09; x08; x07]))).
  { apply (Frame_set_parameters (Message.Bytearray [x09; x08; x07])
             (Message.mk [x06; x02; x05; x0a; x17; x00] (Some [x05; x0a])));
      [|reflexivity].
    apply (Frame_set_command Message.COMMAND_SELECT_RF
             (Message.mk [x06; x01; x05; x0a; x16; x00] (Some [x05; x0a])));
      [|reflexivity].
    apply (Frame_new Message.COMMAND_CONNECTION [0x05; 0x0A]). reflexivity. }
  split; [exact F | exact (checksum_invariant _ F)].
Defined.

(** The layout of a frame built by [new], read back. *)
Lemma built_frame_parts (L C lo hi : byte) (v : list byte) :
  let raw := L :: C :: v ++ [lo; hi] in
  firstn (List.length raw - 2) raw = L :: C :: v
  /\ skipn (List.length raw - 2) raw = [lo; hi]
  /\ firstn (List.length raw - 4) (skipn 2 raw) = v
  /\ len raw = len v + 4.
Proof.
  cbn zeta. cbn [List.length]. rewrite length_app. cbn [List.length].
  replace (S (S (List.length v + 2)) - 2)%nat with (S (S (List.length v))) by lia.
  replace (S (S (List.length v + 2)) - 4)%nat with (List.length v) by lia.
  cbn [firstn skipn].
  rewrite firstn_app, firstn_all, Nat.sub_diag, skipn_app, skipn_all, Nat.sub_diag.
  cbn [firstn skipn app]. rewrite app_nil_r.
  repeat split. rewrite !len_cons, len_app. change (len [lo; hi]) with 2. lia.
Qed.

(** C2. For every registered command and every parameter byte sequence of
    at most 251 bytes, [new] returns a frame, [from_bytes] accepts the
    bytes of that frame, and the frame it returns has the original command
    and the original parameters. *)
Theorem new_from_bytes_roundtrip (c : Z) (ps : list byte) :
  Message.known_command c = true -> len ps <= 251 ->
  exists built parsed parsed',
    Message.new c (map int_of_byte ps) = Ok built
    /\ Message.from_bytes (Message.to_bytes built) = Ok parsed
    /\ Message.command parsed = Message.Return c parsed
    /\ Message.parameters parsed = Message.Return ps parsed'.
Proof.
  intros Hk Hps.
  destruct (new_eq c ps Hk Hps) as [L [C [lo [hi [EL [EC [Ecs Enew]]]]]]].
  destruct (built_frame_parts L C lo hi ps) as [Hbody [Htail [Hpar Hlen]]].
  set (raw := L :: C :: ps ++ [lo; hi]) in *.
  exists (Message.mk raw (Some ps)), (Message.mk raw None),
         (Message.mk raw (Some ps)).
  split; [exact Enew|]. split; [|split].
  - unfold Message.to_bytes. cbn [Message.data].
    rewrite from_bytes_eq.
    destruct (Z.ltb_spec 255 (len raw)); [lia|].
    unfold raw at 1. fold raw.
    rewrite Hlen, (byte_of_int_Some _ _ EL), Z.eqb_refl. cbn [negb].
    rewrite Hbody, !sum_cons, Z.add_assoc, Ecs, Htail, bytes_eqb_refl.
    reflexivity.
  - unfold Message.command, Message.getitem. cbn [Message.data].
    rewrite item_index_1.
    destruct (Z.leb_spec (len raw) 1); [pose proof (len_nonneg ps); lia|].
    unfold raw. cbn [nth]. now rewrite (byte_of_int_Some _ _ EC).
  - rewrite parameters_fresh. now rewrite Hpar.
Qed.

Lemma new_from_bytes_roundtrip_witness :
  Message.known_command 0x01 = true /\ len [x05; x0a] <= 251
  /\ exists built parsed parsed',
       Message.new 0x01 (map int_of_byte [x05; x0a]) = Ok built
       /\ Message.from_bytes (Message.to_bytes built) = Ok parsed
       /\ Message.command parsed = Message.Return 0x01 parsed
       /\ Message.parameters parsed = Message.Return [x05; x0a] parsed'.
Proof.
  split; [reflexivity|]. split; [vm_compute; discriminate|].
  apply (new_from_bytes_roundtrip 0x01 [x05; x0a]);
    [reflexivity | vm_compute; discriminate].
Defined.

(** C4 as stated fails: the bytes of [version()] are not
    [04 03 04 00]. *)
Lemma version_bytes_counterexample :
  ~ (exists frame, Message.version = Ok frame
                   /\ Message.to_bytes frame = [x04; x03; x04; x00]).
Proof.
  intros [frame [E H]]. vm_compute in E. injection E as <-.
  vm_compute in H. discriminate.
Qed.

(** C4, amended. [version()] builds the frame [04 03 07 00]: length 4,
    command 0x03, and the checksum 0x0007 of these two bytes, low byte
    first. *)
Theorem version_bytes :
  exists frame, Message.version = Ok frame
                /\ Message.to_bytes frame = [x04; x03; x07; x00].
Proof.
  exists (Message.mk [x04; x03; x07; x00] (Some [])). split; reflexivity.
Qed.

(** C9. On every buffer of at most 255 bytes, the sum that the checksum
    covers is at most 253 * 255 = 64515, so that its two-byte encoding
    never overflows: [get_checksum] returns the two bytes of the sum
    modulo 65536, low byte first, and [_update_checksum] returns too. *)
Theorem checksum_never_overflows (self : Message.t) :
  len (Message.data self) <= 255 ->
  let covered := slice_get (Message.data self) None (Some Message.INDEX_CHECKSUM) in
  len covered <= 253
  /\ 0 <= sum covered <= 64515
  /\ (exists c, Message.get_checksum self = Message.Return c self
                /\ List.length c = 2%nat
                /\ from_little c = sum covered mod 65536)
  /\ exists self', Message._update_checksum self = Message.Return tt self'.
Proof.
  intros Hn covered. unfold covered, Message.INDEX_CHECKSUM.
  rewrite slice_get_body.
  set (body := firstn (List.length (Message.data self) - 2) (Message.data self)).
  assert (Hlen : len body <= 253).
  { unfold body, len in *. rewrite length_firstn. lia. }
  pose proof (sum_bounds body) as Hs.
  assert (Hsum : 0 <= sum body <= 64515) by lia.
  destruct (to_bytes_2_little_Ok (sum body)) as [lo [hi [Ecs [Hlo Hhi]]]]; [lia|].
  split; [exact Hlen|]. split; [exact Hsum|]. split.
  - exists [lo; hi]. rewrite get_checksum_eq. fold body. rewrite Ecs.
    split; [reflexivity|]. split; [reflexivity|].
    cbn [from_little]. rewrite (Z.mod_small (sum body) 65536) by lia.
    rewrite Hlo, Hhi.
    pose proof (Z.div_mod (sum body) 256 ltac:(lia)). lia.
  - rewrite update_checksum_eq. fold body. rewrite Ecs. eauto.
Qed.

Lemma checksum_never_overflows_witness :
  len (Message.data (Message.mk (repeat xff 255) None)) <= 255
  /\ exists c,
       Message.get_checksum (Message.mk (repeat xff 255) None)
       = Message.Return c (Message.mk (repeat xff 255) None)
       /\ from_little c = 64515.
Proof.
  split; [vm_compute; discriminate|].
  destruct (checksum_never_overflows (Message.mk (repeat xff 255) None))
    as [_ [_ [[c [E [_ Hc]]] _]]]; [vm_compute; discriminate|].
  exists c. split; [exact E|]. rewrite Hc. reflexivity.
Defined.

(** Outside that domain the encoding does raise: the code does not wrap. *)
Lemma get_checksum_overflows_beyond_frames :
  Message.get_checksum (Message.mk (repeat xff 260) None)
  = Message.Raise OverflowError (Message.mk (repeat xff 260) None).
Proof. vm_compute. reflexivity. Qed.

(** C10. When a call of [set_command] or [set_parameters] on a frame
    raises (unknown command, payload that is not a bytearray, payload
    rejected for its length), the frame is what it was before the call:
    same length byte, command, parameters and checksum. *)
Theorem failed_setter_leaves_frame (self self' : Message.t) (e : exn) c x :
  Frame self ->
  Message.set_command c self = Message.Raise e self'
  \/ Message.set_parameters x self = Message.Raise e self' ->
  self' = self.
Proof.
  intros F [E|E].
  - apply Frame_invariant in F as [Hn _].
    apply set_command_Raise in E; [tauto | lia].
  - apply set_parameters_Raise in E. tauto.
Qed.

Lemma failed_setter_leaves_frame_witness :
  Frame (Message.mk [x04; x03; x07; x00] (Some []))
  /\ Message.set_command 0x04 (Message.mk [x04; x03; x07; x00] (Some []))
     = Message.Raise (Message.InvalidCommand 0x04)
                     (Message.mk [x04; x03; x07; x00] (Some []))
  /\ Message.mk [x04; x03; x07; x00] (Some [])
     = Message.mk [x04; x03; x07; x00] (Some []).
Proof.
  assert (F : Frame (Message.mk [x04; x03; x07; x00] (Some [])))
    by (apply (Frame_new Message.COMMAND_GET_VERSION []); reflexivity).
  split; [exact F|]. split; [reflexivity|].
  apply (failed_setter_leaves_frame _ _ (Message.InvalidCommand 0x04) 0x04
           Message.NotBytearray F).
  left. reflexivity.
Defined.

(** The three rejections of the setters, by name. *)
Lemma setter_rejections (self : Message.t) c (v : list byte) :
  (Message.known_command c = false ->
   Message.set_command c self = Message.Raise (Message.InvalidCommand c) self)
  /\ Message.set_parameters Message.NotBytearray self
     = Message.Raise Message.NotABytearray self
  /\ (251 < len v ->
      Message.set_parameters (Message.Bytearray v) self
      = Message.Raise Message.TooManyParameters self).
Proof.
  split; [apply set_command_unknown|]. split; [reflexivity|].
  intros Hv. now apply (set_parameters_too_many (Message.Bytearray v) v).
Qed.

(** *** Resizing *)

(** C5, at the failing input: on the frame [06 01 05 0a 16 00] of
    [test()], whose payload has two bytes, assigning the one-byte payload
    [07] raises [ValueError] and leaves the frame as it was. *)
Theorem set_parameters_shorter_raises :
  exists frame,
    Message.test = Ok frame
    /\ Message.to_bytes frame = [x06; x01; x05; x0a; x16; x00]
    /\ Message.set_parameters (Message.Bytearray [x07]) frame
       = Message.Raise ValueError frame.
Proof.
  exists (Message.mk [x06; x01; x05; x0a; x16; x00] (Some [x05; x0a])).
  repeat split.
Qed.

(** X11. A payload that is not shorter than the current one is accepted:
    the frame then has four bytes more than the payload, its first byte
    is that count, and its parameters region is the payload. *)
Lemma set_parameters_longer (self : Message.t) x (v : list byte) :
  Message.is_bytearray x = Some v -> len v <= 251 ->
  len (Message.data self) <= len v + 4 ->
  exists self',
    Message.set_parameters x self = Message.Return tt self'
    /\ len (Message.data self') = len v + 4
    /\ Message.length self' = Message.Return (len (Message.data self')) self'
    /\ slice_get (Message.data self') (Some Message.INDEX_PARAMETERS)
                 (Some Message.INDEX_CHECKSUM) = v.
Proof.
  intros Hx Hv Hn.
  destruct (set_parameters_grow x v self Hx Hv Hn) as [L [lo [hi [EL [_ E]]]]].
  destruct (built_frame_parts L (nth 1 (Message.data self) x00) lo hi v)
    as [_ [_ [Hpar Hlen]]].
  eexists. split; [exact E|]. cbn [Message.data]. split; [exact Hlen|]. split.
  - unfold Message.length, Message.getitem. cbn [Message.data].
    rewrite item_index_0 by (pose proof (len_nonneg v); lia).
    cbn [nth]. now rewrite (byte_of_int_Some _ _ EL), Hlen.
  - unfold Message.INDEX_PARAMETERS, Message.INDEX_CHECKSUM.
    now rewrite slice_get_params.
Qed.

(** [set_command] keeps the size of a frame. *)
Lemma set_command_keeps_size (self self' : Message.t) c :
  Frame self -> Message.set_command c self = Message.Return tt self' ->
  len (Message.data self') = len (Message.data self).
Proof.
  intros F E. apply Frame_invariant in F as [Hn _].
  apply set_command_invariant in E; [tauto | lia].
Qed.

(** *** The view kept by the [parameters] property *)

(** X13. After a plain [bytearray] was assigned, the getter returns that
    payload. *)
Lemma view_after_plain_payload (self self' : Message.t) (v : list byte) :
  Message.set_parameters (Message.Bytearray v) self = Message.Return tt self' ->
  exists self'', Message.parameters self' = Message.Return v self''.
Proof.
  intros E.
  apply set_parameters_Return in E
    as [w [L [lo [hi [Hx [Hv [Hn [EL [_ ->]]]]]]]]].
  cbn [Message.is_bytearray] in Hx. injection Hx as <-.
  cbn [Message.is_ParametersArray].
  destruct (built_frame_parts L (nth 1 (Message.data self) x00) lo hi v)
    as [_ [_ [Hpar _]]].
  unfold Message.parameters. cbn [Message._parameters].
  destruct v as [|b v']; [|eauto].
  unfold Message.bind, Message.getslice, Message.set_view, Message.ret,
    Message.INDEX_PARAMETERS, Message.INDEX_CHECKSUM.
  cbn [Message.data]. rewrite slice_get_params, Hpar. eauto.
Qed.

(** The setter does not replace the kept view when the value assigned is
    itself a [ParametersArray]: with the view of another frame as value,
    the bytes and the checksum follow the new payload while the getter
    still returns the view kept before. *)
Lemma view_kept_for_foreign_view :
  exists frame frame' frame'',
    Message.test = Ok frame
    /\ Message.set_parameters (Message.ParametersArray [x07; x09]) frame
       = Message.Return tt frame'
    /\ Message.to_bytes frame' = [x06; x01; x07; x09; x17; x00]
    /\ Message.parameters frame' = Message.Return [x05; x0a] frame''.
Proof.
  exists (Message.mk [x06; x01; x05; x0a; x16; x00] (Some [x05; x0a])),
         (Message.mk [x06; x01; x07; x09; x17; x00] (Some [x05; x0a])),
         (Message.mk [x06; x01; x07; x09; x17; x00] (Some [x05; x0a])).
  repeat split.
Qed.

(** *** The validating constructor *)

(** The rejections of [from_bytes] differ by their message, and differ
    from the built-in errors. *)
Lemma from_bytes_errors_distinct (n : Z) (c : list byte) :
  Message.FrameTooLong <> Message.LengthMismatch n
  /\ Message.FrameTooLong <> Message.ChecksumMismatch c
  /\ Message.LengthMismatch n <> Message.ChecksumMismatch c
  /\ IndexError <> Message.FrameTooLong
  /\ IndexError <> Message.LengthMismatch n
  /\ IndexError <> Message.ChecksumMismatch c.
Proof.
  unfold Message.FrameTooLong, Message.LengthMismatch, Message.ChecksumMismatch.
  cbn [append]. repeat split; discriminate.
Qed.

(** C6, at the failing input: on the empty byte sequence [from_bytes]
    fails with none of its three rejections, but with the [IndexError] of
    reading the length byte that is not there. *)
Theorem from_bytes_empty :
  Message.from_bytes [] = Err IndexError
  /\ Message.from_bytes [] <> Err Message.FrameTooLong
  /\ (forall n, Message.from_bytes [] <> Err (Message.LengthMismatch n))
  /\ (forall c, Message.from_bytes [] <> Err (Message.ChecksumMismatch c)).
Proof.
  change (Message.from_bytes []) with (@Err Message.t IndexError).
  split; [reflexivity|]. split; [|split].
  - intros E. injection E. apply (from_bytes_errors_distinct 0 []).
  - intros n E. injection E. apply (from_bytes_errors_distinct n []).
  - intros c E. injection E. apply (from_bytes_errors_distinct 0 c).
Qed.

Lemma Err_inj {A : Type} (a b : exn) : @Err A a = Err b -> a = b.
Proof. intros E. now injection E. Qed.

(** The sum covered by the checksum of a buffer of at most 257 bytes fits
    in two bytes. *)
Lemma covered_sum_encodes (d : list byte) :
  len d <= 257 ->
  exists lo hi,
    to_bytes_2_little (sum (firstn (List.length d - 2) d)) = Ok [lo; hi].
Proof.
  intros Hd.
  destruct (to_bytes_2_little_Ok (sum (firstn (List.length d - 2) d)))
    as [lo [hi [E _]]]; [|now exists lo, hi].
  pose proof (sum_bounds (firstn (List.length d - 2) d)) as Hs.
  assert (len (firstn (List.length d - 2) d) <= 255)
    by (unfold len in *; rewrite length_firstn; lia).
  lia.
Qed.

(** X3. On every byte sequence that has a first byte, the three rejections
    are told apart as follows: too long exactly beyond 255 bytes;
    otherwise a length mismatch exactly when the first byte is not the
    byte count; otherwise a checksum mismatch exactly when the last two
    bytes are not the computed checksum, and a frame holding exactly the
    given bytes when they are. *)
Lemma from_bytes_nonempty (b : byte) (rest : list byte) :
  let raw := b :: rest in
  (Message.from_bytes raw = Err Message.FrameTooLong <-> 255 < len raw)
  /\ (len raw <= 255 ->
      (Message.from_bytes raw = Err (Message.LengthMismatch (len raw))
       <-> int_of_byte b <> len raw))
  /\ (len raw <= 255 -> int_of_byte b = len raw ->
      exists c,
        Message.get_checksum (Message.mk raw None)
        = Message.Return c (Message.mk raw None)
        /\ (Message.from_bytes raw = Err (Message.ChecksumMismatch c)
            <-> c <> slice_get raw (Some Message.INDEX_CHECKSUM) None)
        /\ (Message.from_bytes raw = Ok (Message.mk raw None)
            <-> c = slice_get raw (Some Message.INDEX_CHECKSUM) None)).
Proof.
  intros raw. unfold raw. clear raw.
  unfold Message.INDEX_CHECKSUM. rewrite slice_get_tail, get_checksum_eq.
  cbn [Message.data]. rewrite from_bytes_eq. cbv beta iota.
  set (raw := b :: rest).
  destruct (Z.ltb_spec 255 (len raw)) as [Hlong|Hmax].
  { split; [tauto|]. split; intros; lia. }
  destruct (Z.eqb_spec (len raw) (int_of_byte b)) as [Hb|Hb]; cbn [negb].
  - destruct (covered_sum_encodes raw) as [lo [hi Ecs]]; [lia|]. rewrite Ecs.
    destruct (bytes_eqb [lo; hi] (skipn (List.length raw - 2) raw)) eqn:Eeq.
    + apply bytes_eqb_eq in Eeq. split; [|split].
      * split; [intros E; discriminate E | lia].
      * intros _. split; [intros E; discriminate E | intros H; congruence].
      * intros _ _. exists [lo; hi]. split; [reflexivity|]. split.
        -- split; [intros E; discriminate E | intros H; congruence].
        -- split; [intros _; exact Eeq | reflexivity].
    + apply bytes_eqb_neq in Eeq.
      destruct (from_bytes_errors_distinct (len raw) [lo; hi])
        as [_ [D2 [D3 _]]].
      split; [|split].
      * split; [|lia]. intros E. apply Err_inj in E. now symmetry in E.
      * intros _. split; [|intros H; congruence].
        intros E. apply Err_inj in E. now symmetry in E.
      * intros _ _. exists [lo; hi]. split; [reflexivity|]. split.
        -- split; [intros _; exact Eeq | reflexivity].
        -- split; [intros E; discriminate E | intros H; congruence].
  - destruct (from_bytes_errors_distinct (len raw) []) as [D1 _].
    split; [|split].
    + split; [|lia]. intros E. apply Err_inj in E. now symmetry in E.
    + intros _. split; [congruence | reflexivity].
    + intros _ H. congruence.
Qed.

(** A frame whose length byte was changed is rejected for its length. *)
Lemma tampered_length_rejected (b b' : byte) (rest : list byte) self :
  Message.from_bytes (b :: rest) = Ok self -> b' <> b ->
  Message.from_bytes (b' :: rest)
  = Err (Message.LengthMismatch (len (b :: rest))).
Proof.
  intros E Hb. apply from_bytes_Ok in E as [_ [Hn [[b0 [r0 [Eraw Hlen]]] _]]].
  injection Eraw as <- <-.
  rewrite from_bytes_eq. rewrite !len_cons in *.
  destruct (Z.ltb_spec 255 (1 + len rest)); [lia|].
  destruct (Z.eqb_spec (1 + len rest) (int_of_byte b')) as [H'|H']; [|reflexivity].
  exfalso. apply Hb, int_of_byte_inj. lia.
Qed.

(** X24. A frame whose two checksum bytes were replaced by any other
    two bytes is rejected for its checksum, and the exception reports the
    checksum that was computed. *)
Lemma tampered_checksum_rejected (body t : list byte) (lo hi : byte) self :
  Message.from_bytes (body ++ [lo; hi]) = Ok self ->
  List.length t = 2%nat -> t <> [lo; hi] ->
  Message.from_bytes (body ++ t) = Err (Message.ChecksumMismatch [lo; hi]).
Proof.
  intros E Ht Hne.
  apply from_bytes_Ok in E
    as [_ [Hn [[b0 [r0 [Eraw Hlen]]] [lo0 [hi0 [Ecs Etail]]]]]].
  rewrite length_app in Ecs, Etail. cbn [List.length] in Ecs, Etail.
  replace (List.length body + 2 - 2)%nat with (List.length body) in Ecs, Etail
    by lia.
  rewrite firstn_app, firstn_all, Nat.sub_diag in Ecs.
  cbn [firstn] in Ecs. rewrite app_nil_r in Ecs.
  rewrite skipn_app, skipn_all, Nat.sub_diag in Etail.
  cbn [skipn app] in Etail. injection Etail as <- <-.
  rewrite len_app in Hn, Hlen. change (len [lo; hi]) with 2 in Hn, Hlen.
  destruct body as [|b body'].
  { unfold len in Hn. cbn [List.length] in Hn. lia. }
  cbn [app] in Eraw. injection Eraw as <- _.
  rewrite from_bytes_eq. cbn [app].
  change (b :: body' ++ t) with ((b :: body') ++ t).
  assert (Hlen' : len ((b :: body') ++ t) = len (b :: body') + 2).
  { rewrite len_app. unfold len at 2. rewrite Ht. reflexivity. }
  rewrite Hlen'.
  destruct (Z.ltb_spec 255 (len (b :: body') + 2)); [lia|].
  rewrite Hlen, Z.eqb_refl. cbn [negb].
  rewrite length_app, Ht.
  replace (List.length (b :: body') + 2 - 2)%nat with (List.length (b :: body'))
    by lia.
  rewrite firstn_app, firstn_all, Nat.sub_diag. cbn [firstn]. rewrite app_nil_r.
  rewrite Ecs, skipn_app, skipn_all, Nat.sub_diag. cbn [skipn app].
  destruct (bytes_eqb [lo; hi] t) eqn:Eeq; [|reflexivity].
  apply bytes_eqb_eq in Eeq. congruence.
Qed.

(** *** Sizes *)

(** C8, at the failing input: [from_bytes] accepts the three bytes
    [03 03 00], whose length byte is the byte count and whose last two
    bytes are the checksum of the first; the frame it returns has three
    bytes. *)
Theorem from_bytes_accepts_three_bytes :
  exists frame,
    Message.from_bytes [x03; x03; x00] = Ok frame
    /\ Message.to_bytes frame = [x03; x03; x00]
    /\ len (Message.to_bytes frame) < Message.MIN_LENGTH.
Proof.
  exists (Message.mk [x03; x03; x00] None). repeat split.
Qed.

(** What [new] returns has 4 to 255 bytes, of which at most 251 are
    parameters, and its first byte is its size. *)
Lemma new_sizes c (parameters : list Z) self :
  Message.new c parameters = Ok self ->
  4 <= len (Message.data self) <= 255
  /\ len (slice_get (Message.data self) (Some Message.INDEX_PARAMETERS)
                    (Some Message.INDEX_CHECKSUM)) <= 251
  /\ Message.length self = Message.Return (len (Message.data self)) self.
Proof.
  intros E. apply new_Ok in E as [_ [v [self1 [_ E]]]].
  apply set_parameters_Return in E
    as [w [L [lo [hi [Hx [Hv [Hn [EL [_ ->]]]]]]]]].
  destruct (built_frame_parts L (nth 1 (Message.data self1) x00) lo hi w)
    as [_ [_ [Hpar Hlen]]].
  cbn [Message.data].
  unfold Message.INDEX_PARAMETERS, Message.INDEX_CHECKSUM.
  rewrite slice_get_params, Hpar, Hlen.
  pose proof (len_nonneg w). split; [lia|]. split; [lia|].
  unfold Message.length, Message.getitem. cbn [Message.data].
  rewrite Hlen, item_index_0 by lia.
  cbn [nth]. now rewrite (byte_of_int_Some _ _ EL).
Qed.

(** What [from_bytes] returns has 3 to 255 bytes, of which at most 251
    are parameters, and its first byte is its size. *)
Lemma from_bytes_sizes (raw : list byte) self :
  Message.from_bytes raw = Ok self ->
  3 <= len (Message.data self) <= 255
  /\ len (slice_get (Message.data self) (Some Message.INDEX_PARAMETERS)
                    (Some Message.INDEX_CHECKSUM)) <= 251
  /\ Message.length self = Message.Return (len (Message.data self)) self.
Proof.
  intros E. apply from_bytes_Ok in E as [-> [Hn [[b [rest [Eraw Hb]]] _]]].
  cbn [Message.data]. split; [exact Hn|]. split.
  - unfold Message.INDEX_PARAMETERS, Message.INDEX_CHECKSUM.
    rewrite slice_get_params. unfold len in *. rewrite length_firstn. lia.
  - unfold Message.length, Message.getitem. cbn [Message.data].
    rewrite item_index_0 by lia. rewrite Eraw at 1. cbn [nth]. now rewrite Hb.
Qed.

(** ** The link *)

Section Link.
Import RR10.

Context {S : Type} {serial : Serial S}.

(** X15. Request to send, answered by [0xAA]: the handshake succeeds and
    [send] writes the bytes of the frame, returning what the transport
    reports. *)
Lemma send_ready (message : Message.t) (s s1 s2 s3 : S) (n k : Z) :
  write [x55] s = (n, s1) ->
  read 1 s1 = ([xaa], s2) ->
  write (Message.to_bytes message) s2 = (k, s3) ->
  run prepare_to_send s = (Ok true, s2, [DidWrite [x55] n; DidRead 1 [xaa]])
  /\ run (send message) s
     = (Ok k, s3, [DidWrite [x55] n; DidRead 1 [xaa];
                   DidWrite (Message.to_bytes message) k]).
Proof.
  intros Hw Hr Hw'. unfold send, prepare_to_send, serial_write, serial_read.
  cbn [bind run]. rewrite Hw, Hr. cbn [bytes_eqb Byte.eqb andb negb bind run].
  change (Byte.eqb xaa xaa) with true. cbn [andb negb bind run].
  now rewrite Hw'.
Qed.

(** X16. Request to send, answered by anything else: formatting the
    diagnostic raises [TypeError]; the sentinel [0x55] is the only write,
    and neither the handshake nor [send] returns. *)
Lemma send_desync (message : Message.t) (s s1 s2 : S) (n : Z) (got : list byte) :
  write [x55] s = (n, s1) ->
  read 1 s1 = (got, s2) ->
  got <> [xaa] ->
  run prepare_to_send s = (Err TypeError, s2, [DidWrite [x55] n; DidRead 1 got])
  /\ run (send message) s
     = (Err TypeError, s2, [DidWrite [x55] n; DidRead 1 got])
  /\ writes [DidWrite [x55] n; DidRead 1 got] = [[x55]].
Proof.
  intros Hw Hr Hgot. apply bytes_eqb_neq in Hgot.
  unfold send, prepare_to_send, serial_write, serial_read.
  cbn [bind run]. rewrite Hw, Hr, Hgot. cbn [negb bind run lift format_hash_x_bytes].
  repeat split.
Qed.

(** X17. Ready to receive, first byte [0xA5]: the sentinel [0x5A] is
    written, and the handshake returns true exactly when the transport
    reports one byte written. *)
Lemma ready_to_receive_ready (s s1 s2 : S) (count : Z) :
  read 1 s = ([xa5], s1) ->
  write [x5a] s1 = (count, s2) ->
  run ready_to_receive s
  = (Ok (1 =? count), s2, [DidRead 1 [xa5]; DidWrite [x5a] count]).
Proof.
  intros Hr Hw. unfold ready_to_receive, serial_write, serial_read.
  cbn [bind run]. rewrite Hr. change (bytes_eqb [xa5] [xa5]) with true.
  cbn [negb bind run]. now rewrite Hw.
Qed.

(** X18. Ready to receive, any other first byte: formatting the diagnostic
    raises [TypeError] and nothing is written. *)
Lemma ready_to_receive_desync (s s1 : S) (got : list byte) :
  read 1 s = (got, s1) ->
  got <> [xa5] ->
  run ready_to_receive s = (Err TypeError, s1, [DidRead 1 got])
  /\ writes [DidRead 1 got] = [].
Proof.
  intros Hr Hgot. apply bytes_eqb_neq in Hgot.
  unfold ready_to_receive, serial_write, serial_read.
  cbn [bind run]. rewrite Hr, Hgot. cbn [negb bind run lift format_hash_x_bytes].
  split; reflexivity.
Qed.

(** C3, on every transport: [receive] calls [self.prepare_to_receive],
    a name the object does not have (the handshake is defined as
    [ready_to_receive]); the call raises [AttributeError] before any byte
    is read or written, whatever the transport holds. *)
Theorem receive_raises_AttributeError (s : S) :
  hasattr "prepare_to_receive" = false
  /\ run receive s = (Err AttributeError, s, []).
Proof.
  split; reflexivity.
Qed.

End Link.

(** C7, at the failing input: the transport answers the sentinel [0x55]
    with [0x00]; [send] neither returns [0] nor reports a desynchronised
    handshake, it raises the [TypeError] of the diagnostic's format.  The
    sentinel is the only write. *)
Theorem send_desync_raises_TypeError :
  @RR10.run RR10.script RR10.script_serial Z
    (RR10.send (Message.mk [x04; x03; x07; x00] (Some [])))
    (RR10.mkScript [x00] [])
  = (Err TypeError, RR10.mkScript [] [[x55]],
     [RR10.DidWrite [x55] 1; RR10.DidRead 1 [x00]]).
Proof. reflexivity. Qed.

(** * Further properties of the frame *)

(** ** Lists under item assignment *)

Lemma nth_list_update_eq {A : Type} (l : list A) (k : nat) (x d : A) :
  (k < List.length l)%nat -> nth k (list_update l k x) d = x.
Proof.
  revert k. induction l as [|y l IH]; intros [|k] H; cbn in *; try lia.
  - reflexivity.
  - apply IH. lia.
Qed.

Lemma nth_list_update_neq {A : Type} (l : list A) (k j : nat) (x d : A) :
  j <> k -> nth j (list_update l k x) d = nth j l d.
Proof.
  revert k j. induction l as [|y l IH]; intros [|k] [|j] H; cbn; try reflexivity.
  - contradiction.
  - apply IH. lia.
Qed.

Lemma firstn_list_update_ge {A : Type} (l : list A) (k m : nat) (x : A) :
  (m <= k)%nat -> firstn m (list_update l k x) = firstn m l.
Proof.
  revert k m. induction l as [|y l IH]; intros [|k] [|m] H; cbn; try reflexivity.
  - lia.
  - f_equal. apply IH. lia.
Qed.

Lemma firstn_list_update_lt {A : Type} (l : list A) (k m : nat) (x : A) :
  (k < m)%nat -> firstn m (list_update l k x) = list_update (firstn m l) k x.
Proof.
  revert k m. induction l as [|y l IH]; intros [|k] [|m] H; cbn; try reflexivity;
    try lia.
  f_equal. apply IH. lia.
Qed.

Lemma skipn_list_update_ge {A : Type} (l : list A) (k m : nat) (x : A) :
  (m <= k)%nat -> skipn m (list_update l k x) = list_update (skipn m l) (k - m) x.
Proof.
  revert k m. induction l as [|y l IH]; intros k m H.
  - destruct m, k; reflexivity.
  - destruct m as [|m]; [now rewrite Nat.sub_0_r|].
    destruct k as [|k]; [lia|]. cbn. apply IH. lia.
Qed.

Lemma list_update_changes {A : Type} (l : list A) (k : nat) (x d : A) :
  (k < List.length l)%nat -> x <> nth k l d -> list_update l k x <> l.
Proof.
  intros Hk Hx E. apply Hx. rewrite <- E at 1. symmetry.
  now apply nth_list_update_eq.
Qed.

Lemma sum_list_update (l : list byte) (k : nat) (x : byte) :
  (k < List.length l)%nat ->
  sum (list_update l k x) = sum l - int_of_byte (nth k l x00) + int_of_byte x.
Proof.
  revert k. induction l as [|y l IH]; intros [|k] H; cbn [List.length] in H;
    try lia; cbn [list_update nth]; rewrite !sum_cons.
  - lia.
  - rewrite IH by lia. lia.
Qed.

(** Two bytes are determined by their little-endian value. *)
Lemma from_little_inj2 (a b : list byte) :
  List.length a = 2%nat -> List.length b = 2%nat ->
  from_little a = from_little b -> a = b.
Proof.
  destruct a as [|a0 [|a1 [|]]]; try discriminate.
  destruct b as [|b0 [|b1 [|]]]; try discriminate.
  intros _ _. cbn [from_little].
  pose proof (int_of_byte_range a0). pose proof (int_of_byte_range a1).
  pose proof (int_of_byte_range b0). pose proof (int_of_byte_range b1).
  intros E.
  assert (int_of_byte a0 = int_of_byte b0) by lia.
  assert (int_of_byte a1 = int_of_byte b1) by lia.
  f_equal; [|f_equal]; now apply int_of_byte_inj.
Qed.

(** The encoding of a sum is the stored checksum exactly when their
    values agree. *)
Lemma encoding_value (n : Z) (c : list byte) :
  to_bytes_2_little n = Ok c -> List.length c = 2%nat /\ from_little c = n.
Proof.
  intros E. apply to_bytes_2_little_inv in E as [_ [lo [hi [-> H]]]].
  split; [reflexivity|]. cbn [from_little]. lia.
Qed.

(** ** Sizes and the length byte *)

(** The first byte of a frame is its size. *)
Lemma Frame_length_byte (self : Message.t) :
  Frame self ->
  exists b rest,
    Message.data self = b :: rest /\ int_of_byte b = len (Message.data self).
Proof.
  induction 1 as [c ps self E | raw self E | c self self' F IH E
                 | x self self' _ _ E | view self self' _ IH E].
  - apply new_Ok in E as [_ [v [self1 [_ E]]]].
    apply set_parameters_Return in E
      as [w [L [lo [hi [_ [_ [_ [EL [_ ->]]]]]]]]].
    destruct (built_frame_parts L (nth 1 (Message.data self1) x00) lo hi w)
      as [_ [_ [_ Hlen]]].
    cbn [Message.data]. eexists _, _. split; [reflexivity|].
    now rewrite Hlen, (byte_of_int_Some _ _ EL).
  - apply from_bytes_Ok in E as [-> [_ [HB _]]]. exact HB.
  - destruct IH as [b [rest [Ed Hb]]].
    apply Frame_invariant in F as [Hn _].
    destruct (set_command_Return c self self' E) as [Hk _].
    destruct (known_command_byte c Hk) as [C [HC _]].
    destruct (set_command_Return_ok c C self Hk HC) as [lo [hi [_ Eset]]];
      [lia|].
    rewrite Eset in E. injection E as <-. cbn [Message.data].
    rewrite Ed in *. destruct rest as [|x rest].
    { unfold len in Hn. cbn [List.length] in Hn. lia. }
    destruct rest as [|y rest].
    { unfold len in Hn. cbn [List.length] in Hn. lia. }
    cbn [List.length list_update].
    replace (S (S (S (List.length rest))) - 2)%nat with (S (List.length rest))
      by lia.
    cbn [firstn app]. eexists _, _. split; [reflexivity|].
    rewrite Hb. rewrite !len_cons, len_app. unfold len.
    rewrite length_firstn. cbn [List.length]. lia.
  - apply set_parameters_Return in E
      as [w [L [lo [hi [_ [_ [_ [EL [_ ->]]]]]]]]].
    destruct (built_frame_parts L (nth 1 (Message.data self) x00) lo hi w)
      as [_ [_ [_ Hlen]]].
    cbn [Message.data]. eexists _, _. split; [reflexivity|].
    now rewrite Hlen, (byte_of_int_Some _ _ EL).
  - apply parameters_data in E. rewrite E. exact IH.
Qed.

(** X1. Every frame has 3 to 255 bytes, the [length] property returns
    that size (the first byte is the byte count), and the parameters
    region has at most 251 bytes. *)
Theorem frame_sizes (self : Message.t) :
  Frame self ->
  3 <= len (Message.data self) <= 255
  /\ Message.length self = Message.Return (len (Message.data self)) self
  /\ len (payload self) <= 251.
Proof.
  intros F. destruct (Frame_length_byte self F) as [b [rest [Ed Hb]]].
  apply Frame_invariant in F as [Hn _].
  split; [exact Hn|]. split.
  - unfold Message.length, Message.getitem.
    rewrite item_index_0 by lia. rewrite Ed at 1. cbn [nth]. now rewrite Hb.
  - unfold payload, Message.INDEX_PARAMETERS, Message.INDEX_CHECKSUM.
    rewrite slice_get_params. unfold len in *. rewrite length_firstn. lia.
Qed.

Lemma frame_sizes_witness :
  Frame (Message.mk [x03; x03; x00] None)
  /\ 3 <= len (Message.data (Message.mk [x03; x03; x00] None)) <= 255.
Proof.
  assert (F : Frame (Message.mk [x03; x03; x00] None))
    by (apply (Frame_from_bytes [x03; x03; x00]); reflexivity).
  split; [exact F | exact (proj1 (frame_sizes _ F))].
Defined.

(** X2. The bytes of every frame are accepted by the validating
    constructor, which returns a frame with the same bytes: whatever the
    class hands out can be put on the wire and parsed back. *)
Theorem frame_bytes_parse_back (self : Message.t) :
  Frame self ->
  Message.from_bytes (Message.to_bytes self)
  = Ok (Message.mk (Message.data self) None).
Proof.
  intros F. destruct (Frame_length_byte self F) as [b [rest [Ed Hb]]].
  apply Frame_invariant in F as [Hn [Hlen2 Hval]].
  unfold Message.to_bytes. rewrite from_bytes_eq.
  destruct (Z.ltb_spec 255 (len (Message.data self))); [lia|].
  rewrite Ed at 1. rewrite Hb, Z.eqb_refl. cbn [negb].
  unfold Message.INDEX_CHECKSUM in Hlen2, Hval.
  rewrite slice_get_tail in Hlen2, Hval. rewrite slice_get_body in Hval.
  destruct (covered_sum_encodes (Message.data self)) as [lo [hi Ecs]]; [lia|].
  rewrite Ecs.
  destruct (to_bytes_2_little_inv _ _ Ecs) as [Hs _].
  apply encoding_value in Ecs as [_ Hc].
  rewrite Z.mod_small in Hval by lia.
  replace (bytes_eqb [lo; hi] _) with true; [reflexivity|].
  symmetry. apply bytes_eqb_eq.
  apply from_little_inj2; [reflexivity | exact Hlen2 | congruence].
Qed.

Lemma frame_bytes_parse_back_witness :
  Frame (Message.mk [x06; x01; x05; x0a; x16; x00] (Some [x05; x0a]))
  /\ Message.from_bytes [x06; x01; x05; x0a; x16; x00]
     = Ok (Message.mk [x06; x01; x05; x0a; x16; x00] None).
Proof.
  assert (F : Frame (Message.mk [x06; x01; x05; x0a; x16; x00]
                                (Some [x05; x0a])))
    by (apply (Frame_new Message.COMMAND_CONNECTION [0x05; 0x0A]); reflexivity).
  split; [exact F | exact (frame_bytes_parse_back _ F)].
Defined.

(** ** What the checksum detects *)

(** [from_bytes] on a byte sequence whose first byte is known. *)
Lemma from_bytes_cons_eq (raw : list byte) (b : byte) (rest : list byte) :
  raw = b :: rest ->
  Message.from_bytes raw
  = if 255 <? len raw then Err Message.FrameTooLong
    else if negb (len raw =? int_of_byte b)
         then Err (Message.LengthMismatch (len raw))
         else
           match to_bytes_2_little (sum (firstn (List.length raw - 2) raw)) with
           | Ok c =>
               if bytes_eqb c (skipn (List.length raw - 2) raw)
               then Ok (Message.mk raw None)
               else Err (Message.ChecksumMismatch c)
           | Err e => Err e
           end.
Proof.
  intros ->. rewrite from_bytes_eq. reflexivity.
Qed.

(** X4. One changed byte is always detected: when [from_bytes] accepts a
    byte sequence, it rejects every sequence that differs from it in
    exactly one position, for its length when the position is the first,
    for its checksum otherwise. *)
Theorem corrupted_byte_rejected (raw : list byte) (self : Message.t)
    (k : nat) (b' : byte) :
  Message.from_bytes raw = Ok self ->
  (k < List.length raw)%nat ->
  b' <> nth k raw x00 ->
  (k = 0%nat ->
   Message.from_bytes (list_update raw k b')
   = Err (Message.LengthMismatch (len raw)))
  /\ (k <> 0%nat ->
      exists c, Message.from_bytes (list_update raw k b')
                = Err (Message.ChecksumMismatch c)).
Proof.
  intros E Hk Hb'.
  apply from_bytes_Ok in E
    as [_ [Hn [[b [rest [Eraw Hb]]] [lo [hi [Ecs Etail]]]]]].
  set (raw' := list_update raw k b').
  assert (Hlen' : List.length raw' = List.length raw)
    by apply list_update_length.
  assert (Hlen : len raw' = len raw) by (unfold len; now rewrite Hlen').
  split.
  - intros ->. unfold raw'. clear raw' Hlen Hlen'. subst raw.
    cbn [list_update nth] in *.
    rewrite (from_bytes_cons_eq (b' :: rest) b' rest eq_refl).
    replace (len (b' :: rest)) with (len (b :: rest)) by now rewrite !len_cons.
    destruct (Z.ltb_spec 255 (len (b :: rest))); [lia|].
    destruct (Z.eqb_spec (len (b :: rest)) (int_of_byte b')) as [H'|H'];
      cbn [negb]; [|reflexivity].
    exfalso. apply Hb', int_of_byte_inj. lia.
  - intros Hk0.
    assert (Eraw' : raw' = b :: list_update rest (k - 1) b').
    { unfold raw'. rewrite Eraw. destruct k as [|k]; [contradiction|].
      cbn [list_update]. now replace (S k - 1)%nat with k by lia. }
    rewrite (from_bytes_cons_eq raw' b _ Eraw'), Hlen, Hlen'.
    destruct (Z.ltb_spec 255 (len raw)); [lia|].
    rewrite Hb, Z.eqb_refl. cbn [negb].
    destruct (Nat.lt_ge_cases k (List.length raw - 2)) as [Hbody|Htail].
    + (* the changed byte is covered by the checksum *)
      destruct (covered_sum_encodes raw') as [lo' [hi' Ecs']]; [lia|].
      rewrite Hlen' in Ecs'. rewrite Ecs'.
      unfold raw' at 1. rewrite skipn_list_update by exact Hbody.
      rewrite Etail. exists [lo'; hi'].
      replace (bytes_eqb [lo'; hi'] [lo; hi]) with false; [reflexivity|].
      symmetry. apply bytes_eqb_neq. intros Eq.
      apply encoding_value in Ecs as [_ Hv].
      apply encoding_value in Ecs' as [_ Hv'].
      rewrite Eq, Hv in Hv'. unfold raw' in Hv'.
      rewrite firstn_list_update_lt in Hv' by exact Hbody.
      rewrite sum_list_update in Hv' by (rewrite length_firstn; lia).
      rewrite nth_firstn in Hv'.
      destruct (Nat.ltb_spec k (List.length raw - 2)); [|lia].
      assert (int_of_byte b' = int_of_byte (nth k raw x00)) by lia.
      apply Hb'. now apply int_of_byte_inj.
    + (* the changed byte is one of the two checksum bytes *)
      unfold raw'. rewrite firstn_list_update_ge by exact Htail.
      rewrite Ecs, skipn_list_update_ge by exact Htail. rewrite Etail.
      exists [lo; hi].
      replace (bytes_eqb _ _) with false; [reflexivity|].
      symmetry. apply bytes_eqb_neq. intros Eq. symmetry in Eq. revert Eq.
      apply (list_update_changes _ _ _ x00).
      * unfold len in *. cbn [List.length]. lia.
      * rewrite <- Etail, nth_skipn.
        now replace (List.length raw - 2 + (k - (List.length raw - 2)))%nat
          with k by lia.
Qed.

Lemma corrupted_byte_rejected_witness :
  Message.from_bytes [x06; x01; x05; x0a; x16; x00]
  = Ok (Message.mk [x06; x01; x05; x0a; x16; x00] None)
  /\ exists c, Message.from_bytes [x06; x01; x05; x0b; x16; x00]
               = Err (Message.ChecksumMismatch c).
Proof.
  split; [reflexivity|].
  apply (corrupted_byte_rejected [x06; x01; x05; x0a; x16; x00]
           (Message.mk [x06; x01; x05; x0a; x16; x00] None) 3 x0b);
    [reflexivity | cbn; lia | discriminate | discriminate].
Defined.

Lemma sum_Permutation (v v' : list byte) : Permutation v v' -> sum v = sum v'.
Proof.
  induction 1 as [|x l l' _ IH|x y l|l l' l'' _ IH1 _ IH2].
  - reflexivity.
  - now rewrite !sum_cons, IH.
  - rewrite !sum_cons. lia.
  - congruence.
Qed.

(** A length byte, any command byte, a payload and the checksum of
    these: [from_bytes] accepts the layout as it is. *)
Lemma from_bytes_layout (L C lo hi : byte) (v : list byte) :
  int_of_byte L = len v + 4 ->
  to_bytes_2_little (int_of_byte L + int_of_byte C + sum v) = Ok [lo; hi] ->
  Message.from_bytes (L :: C :: v ++ [lo; hi])
  = Ok (Message.mk (L :: C :: v ++ [lo; hi]) None).
Proof.
  intros HL Ecs.
  destruct (built_frame_parts L C lo hi v) as [Hbody [Htail [_ Hlen]]].
  pose proof (int_of_byte_range L).
  rewrite (from_bytes_cons_eq _ L _ eq_refl), Hlen.
  destruct (Z.ltb_spec 255 (len v + 4)); [lia|].
  rewrite HL, Z.eqb_refl. cbn [negb].
  now rewrite Hbody, !sum_cons, Z.add_assoc, Ecs, Htail, bytes_eqb_refl.
Qed.

(** X5. What the checksum does not detect: when [from_bytes] accepts a
    frame, it accepts every frame that holds the same parameter bytes in
    another order. *)
Theorem reordered_payload_accepted (L C : byte) (v v' t : list byte)
    (self : Message.t) :
  Message.from_bytes (L :: C :: v ++ t) = Ok self ->
  List.length t = 2%nat ->
  Permutation v v' ->
  Message.from_bytes (L :: C :: v' ++ t)
  = Ok (Message.mk (L :: C :: v' ++ t) None).
Proof.
  intros E Ht HP.
  destruct t as [|lo [|hi [|]]]; try discriminate Ht.
  apply from_bytes_Ok in E
    as [_ [_ [[b [rest [Eraw Hb]]] [lo0 [hi0 [Ecs Etail]]]]]].
  injection Eraw as <- _.
  destruct (built_frame_parts L C lo hi v) as [Hbody [Htail [_ Hlen]]].
  rewrite Hbody in Ecs. rewrite Htail in Etail. injection Etail as <- <-.
  rewrite Hlen in Hb. rewrite !sum_cons, Z.add_assoc in Ecs.
  apply from_bytes_layout.
  - unfold len in *. now rewrite <- (Permutation_length HP).
  - now rewrite <- (sum_Permutation v v' HP).
Qed.

Lemma reordered_payload_accepted_witness :
  Message.from_bytes (x06 :: x01 :: [x05; x0a] ++ [x16; x00])
  = Ok (Message.mk [x06; x01; x05; x0a; x16; x00] None)
  /\ Message.from_bytes (x06 :: x01 :: [x0a; x05] ++ [x16; x00])
     = Ok (Message.mk (x06 :: x01 :: [x0a; x05] ++ [x16; x00]) None).
Proof.
  split; [reflexivity|].
  apply (reordered_payload_accepted x06 x01 [x05; x0a] [x0a; x05] [x16; x00]
           (Message.mk [x06; x01; x05; x0a; x16; x00] None));
    [reflexivity | reflexivity | apply perm_swap].
Defined.

(** X6. The validating constructor does not look at the command: for
    every command byte, registered or not, and every payload of at most
    251 bytes, there is a byte sequence that [from_bytes] accepts and
    whose frame has that command and that payload. *)
Theorem from_bytes_does_not_check_command (C : byte) (v : list byte) :
  len v <= 251 ->
  exists raw self,
    Message.from_bytes raw = Ok self
    /\ Message.command self = Message.Return (int_of_byte C) self
    /\ payload self = v.
Proof.
  intros Hv. pose proof (len_nonneg v) as Hv0.
  destruct (byte_of_int_in_range (len v + 4)) as [L [EL HL]]; [lia|].
  destruct (to_bytes_2_little_Ok (int_of_byte L + int_of_byte C + sum v))
    as [lo [hi [Ecs _]]].
  { pose proof (sum_bounds v). pose proof (int_of_byte_range C). lia. }
  destruct (built_frame_parts L C lo hi v) as [_ [_ [Hpar Hlen]]].
  exists (L :: C :: v ++ [lo; hi]), (Message.mk (L :: C :: v ++ [lo; hi]) None).
  split; [now apply from_bytes_layout|]. split.
  - unfold Message.command, Message.getitem. cbn [Message.data].
    rewrite item_index_1, Hlen.
    destruct (Z.leb_spec (len v + 4) 1); [lia | reflexivity].
  - unfold payload, Message.INDEX_PARAMETERS, Message.INDEX_CHECKSUM.
    cbn [Message.data]. now rewrite slice_get_params.
Qed.

Lemma from_bytes_does_not_check_command_witness :
  len [x01] <= 251
  /\ Message.known_command (int_of_byte x00) = false
  /\ exists raw self,
       Message.from_bytes raw = Ok self
       /\ Message.command self = Message.Return (int_of_byte x00) self
       /\ payload self = [x01].
Proof.
  split; [vm_compute; discriminate|]. split; [reflexivity|].
  apply (from_bytes_does_not_check_command x00 [x01]). vm_compute. discriminate.
Defined.

(** ** The constructor from a command and parameters *)

Lemma sum_firstn_le (l : list byte) (m : nat) : 0 <= sum (firstn m l) <= sum l.
Proof.
  rewrite <- (firstn_skipn m l) at 3. rewrite sum_app.
  pose proof (sum_bounds (firstn m l)). pose proof (sum_bounds (skipn m l)).
  pose proof (len_nonneg (firstn m l)). pose proof (len_nonneg (skipn m l)).
  lia.
Qed.

(** On a buffer of zero bytes, however long, [set_command] with a
    registered command returns and keeps the size. *)
Lemma set_command_on_zeros c (n : nat) view :
  Message.known_command c = true -> (4 <= n)%nat ->
  exists self1,
    Message.set_command c (Message.mk (repeat x00 n) view)
    = Message.Return tt self1
    /\ List.length (Message.data self1) = n.
Proof.
  intros Hk Hn. destruct (known_command_byte c Hk) as [C [HC HCc]].
  rewrite (set_command_eq c C _ Hk HC). cbn [Message.data Message._parameters].
  destruct (Z.leb_spec (len (repeat x00 n)) 1) as [H|_].
  { unfold len in H. rewrite repeat_length in H. lia. }
  rewrite update_checksum_eq. cbn [Message.data Message._parameters].
  rewrite list_update_length, repeat_length.
  set (body := firstn (n - 2) (list_update (repeat x00 n) 1 C)).
  destruct (to_bytes_2_little_Ok (sum body)) as [lo [hi [Ecs _]]].
  { pose proof (sum_firstn_le (list_update (repeat x00 n) 1 C) (n - 2)) as Hs.
    fold body in Hs.
    rewrite sum_list_update in Hs by (rewrite repeat_length; lia).
    rewrite sum_repeat_zero, nth_repeat in Hs.
    apply known_command_range in Hk. change (int_of_byte x00) with 0 in Hs. lia. }
  rewrite Ecs. eexists. split; [reflexivity|]. cbn [Message.data].
  unfold body. rewrite length_app, length_firstn, list_update_length, repeat_length.
  cbn [List.length]. lia.
Qed.

Lemma bytearray_of_ints_in_range (t : list Z) :
  Forall (fun z => 0 <= z <= 255) t ->
  exists v, bytearray_of_ints t = Ok v /\ t = map int_of_byte v.
Proof.
  induction 1 as [|z t Hz _ [v [Ev Et]]].
  - now exists [].
  - destruct (byte_of_int_in_range z Hz) as [b [Eb Hb]].
    exists (b :: v). cbn [bytearray_of_ints map]. rewrite Eb, Ev.
    split; [reflexivity | congruence].
Qed.

Lemma bytearray_of_ints_out_of_range (t : list Z) :
  Exists (fun z => z < 0 \/ 255 < z) t -> bytearray_of_ints t = Err ValueError.
Proof.
  induction 1 as [z t Hz|z t _ IH]; cbn [bytearray_of_ints].
  - destruct (byte_of_int z) as [b|] eqn:Eb; [|reflexivity].
    apply byte_of_int_Some in Eb. pose proof (int_of_byte_range b). lia.
  - destruct (byte_of_int z); [|reflexivity]. now rewrite IH.
Qed.

(** [new] with a registered command: the steps up to the conversion of
    the parameters always pass; what is left is the conversion and the
    [parameters] setter on an object of four bytes plus one per
    parameter. *)
Lemma new_registered c (ps : list Z) :
  Message.known_command c = true ->
  exists self1,
    List.length (Message.data self1) = (4 + List.length ps)%nat
    /\ Message.new c ps
       = match bytearray_of_ints ps with
         | Err e => Err e
         | Ok v =>
             match Message.set_parameters (Message.Bytearray v) self1 with
             | Message.Return _ self => Ok self
             | Message.Raise e _ => Err e
             end
         end.
Proof.
  intros Hk.
  destruct (set_command_on_zeros c (4 + List.length ps) None Hk)
    as [self1 [Ecmd Hlen]]; [lia|].
  exists self1. split; [exact Hlen|].
  unfold Message.new, Message.construct, Message.__init__.
  unfold Message.bind at 1. unfold Message.lift at 1.
  unfold bytearray_count, Message.MIN_LENGTH.
  destruct (Z.ltb_spec (4 + len ps) 0); [pose proof (len_nonneg ps); lia|].
  replace (Z.to_nat (4 + len ps)) with (4 + List.length ps)%nat
    by (unfold len; lia).
  unfold Message.ret at 1. unfold Message.bind at 1.
  unfold Message.bytearray_init. cbn [Message._parameters].
  unfold Message.bind at 1. rewrite Ecmd.
  unfold Message.bind at 1.
  destruct (bytearray_of_ints ps) as [v|e]; cbn [Message.lift];
    [|reflexivity].
  unfold Message.ret.
  now destruct (Message.set_parameters (Message.Bytearray v) self1).
Qed.

(** X7. The outcomes of [new], in the order of its checks: an
    unregistered command is refused first, whatever the parameters; then
    a parameter outside [0 .. 255] is a [ValueError]; then more than 251
    parameters are refused; otherwise the frame is built, with four bytes
    more than parameters, the given command and the given parameters. *)
Theorem new_outcomes c (ps : list Z) :
  (Message.known_command c = false ->
   Message.new c ps = Err (Message.InvalidCommand c))
  /\ (Message.known_command c = true ->
      Exists (fun z => z < 0 \/ 255 < z) ps ->
      Message.new c ps = Err ValueError)
  /\ (Message.known_command c = true ->
      Forall (fun z => 0 <= z <= 255) ps -> 251 < len ps ->
      Message.new c ps = Err Message.TooManyParameters)
  /\ (Message.known_command c = true ->
      Forall (fun z => 0 <= z <= 255) ps -> len ps <= 251 ->
      exists self,
        Message.new c ps = Ok self
        /\ len (Message.data self) = len ps + 4
        /\ Message.command self = Message.Return c self
        /\ map int_of_byte (payload self) = ps).
Proof.
  split; [|split; [|split]].
  - intros Hk. unfold Message.new, Message.construct, Message.__init__.
    unfold Message.bind at 1. unfold Message.lift at 1.
    unfold bytearray_count, Message.MIN_LENGTH.
    destruct (Z.ltb_spec (4 + len ps) 0); [pose proof (len_nonneg ps); lia|].
    unfold Message.ret at 1. unfold Message.bind at 1.
    unfold Message.bytearray_init. cbn [Message._parameters].
    unfold Message.bind at 1. now rewrite (set_command_unknown c _ Hk).
  - intros Hk Hex. destruct (new_registered c ps Hk) as [self1 [_ E]].
    now rewrite E, (bytearray_of_ints_out_of_range ps Hex).
  - intros Hk Hall Hlen. destruct (new_registered c ps Hk) as [self1 [_ E]].
    destruct (bytearray_of_ints_in_range ps Hall) as [v [Ev Eps]].
    rewrite E, Ev.
    rewrite (set_parameters_too_many (Message.Bytearray v) v self1 eq_refl);
      [reflexivity|].
    rewrite Eps, len_map in Hlen. exact Hlen.
  - intros Hk Hall Hlen.
    destruct (bytearray_of_ints_in_range ps Hall) as [v [_ ->]].
    rewrite len_map in Hlen |- *.
    destruct (new_eq c v Hk Hlen) as [L [C [lo [hi [EL [EC [_ Enew]]]]]]].
    destruct (built_frame_parts L C lo hi v) as [_ [_ [Hpar Hl]]].
    eexists. split; [exact Enew|]. cbn [Message.data].
    split; [exact Hl|]. split.
    + unfold Message.command, Message.getitem. cbn [Message.data].
      rewrite item_index_1, Hl.
      destruct (Z.leb_spec (len v + 4) 1); [pose proof (len_nonneg v); lia|].
      cbn [nth]. now rewrite (byte_of_int_Some _ _ EC).
    + unfold payload, Message.INDEX_PARAMETERS, Message.INDEX_CHECKSUM.
      cbn [Message.data]. now rewrite slice_get_params, Hpar.
Qed.

Lemma new_outcomes_witness :
  Message.new 0x04 [0x100] = Err (Message.InvalidCommand 0x04)
  /\ Message.new 0x01 [0x05; 0x100] = Err ValueError
  /\ exists self, Message.new 0x01 [0x05; 0x0A] = Ok self
                  /\ len (Message.data self) = len [0x05; 0x0A] + 4.
Proof.
  destruct (new_outcomes 0x04 [0x100]) as [H1 _].
  destruct (new_outcomes 0x01 [0x05; 0x100]) as [_ [H2 _]].
  destruct (new_outcomes 0x01 [0x05; 0x0A]) as [_ [_ [_ H4]]].
  split; [apply H1; reflexivity|]. split.
  - apply H2; [reflexivity|]. apply Exists_cons_tl, Exists_cons_hd. lia.
  - destruct H4 as [self [E [Hl _]]];
      [reflexivity | repeat constructor; lia | vm_compute; discriminate|].
    exists self. split; [exact E | exact Hl].
Defined.

(** ** The setters *)

(** The bytes of an object of at least four bytes after [set_command]
    returned: only the command byte and the checksum moved. *)
Lemma set_command_bytes c (self self' : Message.t) :
  4 <= len (Message.data self) <= 255 ->
  Message.set_command c self = Message.Return tt self' ->
  exists a0 a1 v t C lo hi,
    Message.data self = a0 :: a1 :: v ++ t /\ List.length t = 2%nat
    /\ byte_of_int c = Some C
    /\ to_bytes_2_little (int_of_byte a0 + int_of_byte C + sum v) = Ok [lo; hi]
    /\ self' = Message.mk (a0 :: C :: v ++ [lo; hi]) (Message._parameters self).
Proof.
  intros Hn E. destruct (set_command_Return c self self' E) as [Hk _].
  destruct (known_command_byte c Hk) as [C [HC _]].
  destruct (set_command_Return_ok c C self Hk HC) as [lo [hi [Ecs Eset]]];
    [lia|].
  rewrite Eset in E. injection E as <-.
  destruct (Message.data self) as [|a0 [|a1 rest]] eqn:Ed;
    try (unfold len in Hn; cbn [List.length] in Hn; lia).
  set (v := firstn (List.length rest - 2) rest).
  set (t := skipn (List.length rest - 2) rest).
  assert (Hrest : rest = v ++ t) by (symmetry; apply firstn_skipn).
  assert (Ht : List.length t = 2%nat).
  { unfold t. rewrite length_skipn. unfold len in Hn.
    cbn [List.length] in Hn. lia. }
  cbn [List.length list_update] in Ecs |- *.
  replace (S (S (List.length rest)) - 2)%nat with (S (S (List.length rest - 2)))
    in Ecs |- * by (unfold len in Hn; cbn [List.length] in Hn; lia).
  cbn [firstn] in Ecs |- *. fold v in Ecs |- *.
  exists a0, a1, v, t, C, lo, hi.
  rewrite !sum_cons, Z.add_assoc in Ecs.
  repeat split; try assumption. now rewrite <- Hrest.
Qed.

(** X8. On a frame, [set_command] returns exactly for the fifteen
    registered values (the seventeen names of the class, two pairs of
    which share a value), and raises the unknown-command exception for
    every other integer. *)
Theorem set_command_accepts_registered (self : Message.t) c :
  Frame self ->
  ((exists self', Message.set_command c self = Message.Return tt self')
   <-> In c [1; 2; 3; 6; 7; 8; 9; 10; 11; 12; 13; 14; 15; 32; 33])
  /\ (~ In c [1; 2; 3; 6; 7; 8; 9; 10; 11; 12; 13; 14; 15; 32; 33] ->
      Message.set_command c self
      = Message.Raise (Message.InvalidCommand c) self).
Proof.
  intros F. apply Frame_invariant in F as [Hn _].
  assert (Hiff : Message.known_command c = true
                 <-> In c [1; 2; 3; 6; 7; 8; 9; 10; 11; 12; 13; 14; 15; 32; 33]).
  { rewrite known_command_iff. cbn [In]. tauto. }
  split; [split|].
  - intros [self' E]. apply Hiff. now apply set_command_Return in E.
  - intros Hin. apply Hiff in Hin.
    destruct (known_command_byte c Hin) as [C [HC _]].
    destruct (set_command_Return_ok c C self Hin HC) as [lo [hi [_ E]]];
      [lia | eauto].
  - intros Hnot. apply set_command_unknown.
    destruct (Message.known_command c) eqn:Hk; [|reflexivity].
    exfalso. now apply Hnot, Hiff.
Qed.

Lemma set_command_accepts_registered_witness :
  Frame (Message.mk [x04; x03; x07; x00] (Some []))
  /\ (exists self', Message.set_command 0x21 (Message.mk [x04; x03; x07; x00] (Some []))
                    = Message.Return tt self')
  /\ Message.set_command 0x04 (Message.mk [x04; x03; x07; x00] (Some []))
     = Message.Raise (Message.InvalidCommand 0x04)
                     (Message.mk [x04; x03; x07; x00] (Some [])).
Proof.
  assert (F : Frame (Message.mk [x04; x03; x07; x00] (Some [])))
    by (apply (Frame_new Message.COMMAND_GET_VERSION []); reflexivity).
  split; [exact F|]. split.
  - apply (set_command_accepts_registered _ 0x21 F). cbn [In]. lia.
  - apply (set_command_accepts_registered _ 0x04 F). cbn [In]. lia.
Defined.

(** X9. On a frame of at least four bytes, a [set_command] that returned
    is read back by [command], and it left the size, the length byte, the
    parameters and the kept view as they were. *)
Theorem set_command_then_command (self self' : Message.t) c :
  Frame self -> 4 <= len (Message.data self) ->
  Message.set_command c self = Message.Return tt self' ->
  Message.command self' = Message.Return c self'
  /\ payload self' = payload self
  /\ len (Message.data self') = len (Message.data self)
  /\ nth 0 (Message.data self') x00 = nth 0 (Message.data self) x00
  /\ Message._parameters self' = Message._parameters self.
Proof.
  intros F H4 E. apply Frame_invariant in F as [Hn _].
  destruct (set_command_bytes c self self' (conj H4 (proj2 Hn)) E)
    as [a0 [a1 [v [t [C [lo [hi [Ed [Ht [HC [_ ->]]]]]]]]]]].
  destruct t as [|t0 [|t1 [|]]]; try discriminate Ht.
  destruct (built_frame_parts a0 C lo hi v) as [_ [_ [Hpar Hlen]]].
  destruct (built_frame_parts a0 a1 t0 t1 v) as [_ [_ [Hpar0 Hlen0]]].
  unfold payload, Message.INDEX_PARAMETERS, Message.INDEX_CHECKSUM.
  rewrite !slice_get_params, Ed. cbn [Message.data Message._parameters].
  rewrite Hpar, Hpar0, Hlen, Hlen0. repeat split.
  unfold Message.command, Message.getitem. cbn [Message.data].
  rewrite item_index_1, Hlen.
  destruct (Z.leb_spec (len v + 4) 1); [pose proof (len_nonneg v); lia|].
  cbn [nth]. now rewrite (byte_of_int_Some _ _ HC).
Qed.

Lemma set_command_then_command_witness :
  Frame (Message.mk [x06; x01; x05; x0a; x16; x00] (Some [x05; x0a]))
  /\ Message.command (Message.mk [x06; x02; x05; x0a; x17; x00] (Some [x05; x0a]))
     = Message.Return 0x02
         (Message.mk [x06; x02; x05; x0a; x17; x00] (Some [x05; x0a])).
Proof.
  assert (F : Frame (Message.mk [x06; x01; x05; x0a; x16; x00]
                                (Some [x05; x0a])))
    by (apply (Frame_new Message.COMMAND_CONNECTION [0x05; 0x0A]); reflexivity).
  split; [exact F|].
  apply (set_command_then_command _ _ 0x02 F);
    [vm_compute; discriminate | reflexivity].
Defined.

(** X10. Below four bytes the command byte is a checksum byte: the only
    frame of three bytes is [03 03 00], and every [set_command] that
    returns on it leaves these bytes, so that [command] still returns 3
    whatever was assigned. *)
Theorem three_byte_frame_command (self : Message.t) :
  Frame self -> len (Message.data self) = 3 ->
  Message.data self = [x03; x03; x00]
  /\ forall c self',
       Message.set_command c self = Message.Return tt self' ->
       Message.data self' = [x03; x03; x00]
       /\ Message.command self' = Message.Return 3 self'.
Proof.
  assert (Hthree : forall m, Frame m -> len (Message.data m) = 3 ->
                             Message.data m = [x03; x03; x00]).
  { intros m F H3. destruct (Frame_length_byte m F) as [b [rest [Ed Hb]]].
    apply Frame_invariant in F as [_ [Hl Hv]].
    unfold Message.INDEX_CHECKSUM in Hl, Hv.
    rewrite slice_get_tail in Hl, Hv. rewrite slice_get_body in Hv.
    rewrite Ed in *. destruct rest as [|x [|y [|]]];
      try (unfold len in H3; cbn [List.length] in H3; lia).
    cbn [List.length Nat.sub firstn skipn] in Hv.
    rewrite sum_cons, sum_nil, Hb, H3 in Hv.
    assert (Eb : b = x03) by (apply int_of_byte_inj; rewrite Hb, H3; reflexivity).
    assert (Et : [x; y] = [x03; x00])
      by (apply from_little_inj2; [reflexivity | reflexivity | exact Hv]).
    now rewrite Eb, Et. }
  intros F H3. split; [now apply Hthree|].
  intros c self' E.
  assert (F' : Frame self') by exact (Frame_set_command c self self' F E).
  assert (H3' : len (Message.data self') = 3).
  { apply Frame_invariant in F as [Hn _].
    apply set_command_invariant in E as [Hl _]; [lia | lia]. }
  pose proof (Hthree self' F' H3') as Ed. split; [exact Ed|].
  unfold Message.command, Message.getitem. now rewrite Ed.
Qed.

Lemma three_byte_frame_command_witness :
  Frame (Message.mk [x03; x03; x00] None)
  /\ Message.set_command 0x01 (Message.mk [x03; x03; x00] None)
     = Message.Return tt (Message.mk [x03; x03; x00] None)
  /\ Message.command (Message.mk [x03; x03; x00] None)
     = Message.Return 3 (Message.mk [x03; x03; x00] None).
Proof.
  assert (F : Frame (Message.mk [x03; x03; x00] None))
    by (apply (Frame_from_bytes [x03; x03; x00]); reflexivity).
  split; [exact F|]. split; [reflexivity|].
  destruct (three_byte_frame_command _ F eq_refl) as [_ H].
  apply (H 0x01 (Message.mk [x03; x03; x00] None)). reflexivity.
Defined.

Lemma from_bytes_nonempty_witness :
  Message.from_bytes (x05 :: [x03; x07; x00])
  = Err (Message.LengthMismatch (len (x05 :: [x03; x07; x00])))
  /\ Message.from_bytes (x04 :: [x03; x07; x00])
     = Ok (Message.mk (x04 :: [x03; x07; x00]) None).
Proof.
  split.
  - apply (from_bytes_nonempty x05 [x03; x07; x00]);
      [vm_compute; discriminate | vm_compute; discriminate].
  - destruct (from_bytes_nonempty x04 [x03; x07; x00]) as [_ [_ H]].
    destruct H as [c [Ec [_ Hok]]];
      [vm_compute; discriminate | reflexivity|].
    apply Hok. vm_compute in Ec. injection Ec as <-. reflexivity.
Defined.

Lemma set_parameters_longer_witness :
  Message.is_bytearray (Message.Bytearray [x09; x08; x07]) = Some [x09; x08; x07]
  /\ len (Message.data (Message.mk [x06; x01; x05; x0a; x16; x00] None))
     <= len [x09; x08; x07] + 4
  /\ exists self',
       Message.set_parameters (Message.Bytearray [x09; x08; x07])
                              (Message.mk [x06; x01; x05; x0a; x16; x00] None)
       = Message.Return tt self'
       /\ len (Message.data self') = len [x09; x08; x07] + 4.
Proof.
  split; [reflexivity|]. split; [vm_compute; discriminate|].
  destruct (set_parameters_longer
              (Message.mk [x06; x01; x05; x0a; x16; x00] None)
              (Message.Bytearray [x09; x08; x07]) [x09; x08; x07])
    as [self' [E [Hl _]]];
    [reflexivity | vm_compute; discriminate | vm_compute; discriminate|].
  exists self'. split; [exact E | exact Hl].
Defined.

Lemma view_after_plain_payload_witness :
  Message.set_parameters (Message.Bytearray [x09])
                         (Message.mk [x04; x03; x07; x00] None)
  = Message.Return tt (Message.mk [x05; x03; x09; x11; x00] (Some [x09]))
  /\ exists self'',
       Message.parameters (Message.mk [x05; x03; x09; x11; x00] (Some [x09]))
       = Message.Return [x09] self''.
Proof.
  split; [reflexivity|].
  apply (view_after_plain_payload (Message.mk [x04; x03; x07; x00] None)).
  reflexivity.
Defined.

(** The parameters region of a buffer has four bytes less than the
    buffer, and none below four bytes. *)
Lemma len_payload (self : Message.t) :
  len (payload self) = Z.max 0 (len (Message.data self) - 4).
Proof.
  unfold payload, Message.INDEX_PARAMETERS, Message.INDEX_CHECKSUM.
  rewrite slice_get_params. unfold len.
  rewrite length_firstn, length_skipn. lia.
Qed.

(** X12. Assigning a payload shorter than the current parameters of a
    frame always raises [ValueError] (the negative padding count), for a
    plain [bytearray] as for a view, and leaves the frame as it was. *)
Theorem shorter_payload_rejected (self : Message.t) x (v : list byte) :
  Frame self ->
  Message.is_bytearray x = Some v ->
  len v < len (payload self) ->
  Message.set_parameters x self = Message.Raise ValueError self.
Proof.
  intros F Hx Hv. apply Frame_invariant in F as [Hn _].
  rewrite len_payload in Hv. pose proof (len_nonneg v).
  apply (set_parameters_shrink x v self Hx); lia.
Qed.

Lemma shorter_payload_rejected_witness :
  Frame (Message.mk [x06; x01; x05; x0a; x16; x00] (Some [x05; x0a]))
  /\ Message.set_parameters (Message.ParametersArray [])
       (Message.mk [x06; x01; x05; x0a; x16; x00] (Some [x05; x0a]))
     = Message.Raise ValueError
         (Message.mk [x06; x01; x05; x0a; x16; x00] (Some [x05; x0a])).
Proof.
  assert (F : Frame (Message.mk [x06; x01; x05; x0a; x16; x00]
                                (Some [x05; x0a])))
    by (apply (Frame_new Message.COMMAND_CONNECTION [0x05; 0x0A]); reflexivity).
  split; [exact F|].
  apply (shorter_payload_rejected _ (Message.ParametersArray []) [] F);
    [reflexivity | vm_compute; reflexivity].
Defined.

Lemma app_tail2_inj {A : Type} (v w : list A) (a b c d : A) :
  v ++ [a; b] = w ++ [c; d] -> v = w.
Proof.
  intros E. change (v ++ [a] ++ [b] = w ++ [c] ++ [d]) in E.
  rewrite !app_assoc in E. apply app_inj_tail in E as [E _].
  now apply app_inj_tail in E as [E _].
Qed.

(** X14. The setters compose to the constructor: on a frame, assigning a
    command and then a payload, or a payload and then a command, gives
    the very object that [new] builds from that command and that
    payload, bytes and kept view. *)
Theorem setters_agree_with_new (self self1 self2 : Message.t) c (v : list byte) :
  Frame self ->
  (4 <= len (Message.data self) ->
   Message.set_command c self = Message.Return tt self1 ->
   Message.set_parameters (Message.Bytearray v) self1 = Message.Return tt self2 ->
   Message.new c (map int_of_byte v) = Ok self2)
  /\ (Message.set_parameters (Message.Bytearray v) self = Message.Return tt self1 ->
      Message.set_command c self1 = Message.Return tt self2 ->
      Message.new c (map int_of_byte v) = Ok self2).
Proof.
  intros F. apply Frame_invariant in F as [Hn _]. split.
  - intros H4 Ecmd Eset.
    destruct (set_command_bytes c self self1 (conj H4 (proj2 Hn)) Ecmd)
      as [a0 [a1 [w [t [C [lo0 [hi0 [_ [_ [HC [_ ->]]]]]]]]]]].
    apply set_parameters_Return in Eset
      as [v' [L [lo [hi [Hx [Hv [_ [EL [Ecs ->]]]]]]]]].
    cbn [Message.is_bytearray] in Hx. injection Hx as <-.
    cbn [Message.data nth Message.is_ParametersArray] in *.
    destruct (new_eq c v (proj1 (set_command_Return c self _ Ecmd)) Hv)
      as [L' [C' [lo' [hi' [EL' [EC' [Ecs' Enew]]]]]]].
    rewrite EL in EL'. injection EL' as <-.
    rewrite HC in EC'. injection EC' as <-.
    rewrite Ecs in Ecs'. injection Ecs' as <- <-. exact Enew.
  - intros Eset Ecmd.
    apply set_parameters_Return in Eset
      as [v' [L [lo0 [hi0 [Hx [Hv [_ [EL [_ ->]]]]]]]]].
    cbn [Message.is_bytearray] in Hx. injection Hx as <-.
    cbn [Message.is_ParametersArray] in Ecmd.
    destruct (built_frame_parts L (nth 1 (Message.data self) x00) lo0 hi0 v)
      as [_ [_ [_ Hlen]]].
    assert (Hsz : 4 <= len (Message.data
                    (Message.mk (L :: nth 1 (Message.data self) x00 :: v
                                 ++ [lo0; hi0]) (Some v))) <= 255).
    { cbn [Message.data]. rewrite Hlen. pose proof (len_nonneg v). lia. }
    destruct (set_command_bytes c _ self2 Hsz Ecmd)
      as [a0 [a1 [w [t [C [lo [hi [Ed [Ht [HC [Ecs ->]]]]]]]]]]].
    cbn [Message.data Message._parameters] in *.
    injection Ed as <- _ Evw.
    destruct t as [|t0 [|t1 [|]]]; try discriminate Ht.
    apply app_tail2_inj in Evw as <-.
    destruct (new_eq c v (proj1 (set_command_Return c _ _ Ecmd)) Hv)
      as [L' [C' [lo' [hi' [EL' [EC' [Ecs' Enew]]]]]]].
    rewrite EL in EL'. injection EL' as <-.
    rewrite HC in EC'. injection EC' as <-.
    rewrite Ecs in Ecs'. injection Ecs' as <- <-. exact Enew.
Qed.

Lemma setters_agree_with_new_witness :
  Frame (Message.mk [x04; x03; x07; x00] (Some []))
  /\ Message.new 0x02 (map int_of_byte [x09])
     = Ok (Message.mk [x05; x02; x09; x10; x00] (Some [x09])).
Proof.
  assert (F : Frame (Message.mk [x04; x03; x07; x00] (Some [])))
    by (apply (Frame_new Message.COMMAND_GET_VERSION []); reflexivity).
  split; [exact F|].
  destruct (setters_agree_with_new _
              (Message.mk [x04; x02; x06; x00] (Some []))
              (Message.mk [x05; x02; x09; x10; x00] (Some [x09]))
              0x02 [x09] F) as [H _].
  apply H; [vm_compute; discriminate | reflexivity | reflexivity].
Defined.

(** ** The view of the parameters *)

Section Views.
Import ParametersArray.

(** Writing the bytes of a kept view back to its message, case by case:
    too many bytes and fewer bytes than the message holds are refused by
    the setter after the view has changed; otherwise the message takes
    the bytes and the view is in step with it. *)
Lemma update_after_store (s : state) (bs : list byte) :
  kept (view s) = true ->
  len (Message.data (message s)) <= 255 ->
  (251 < len bs ->
   update_message (store bs s) = Raise Message.TooManyParameters (store bs s))
  /\ (len bs <= 251 -> len bs + 4 < len (Message.data (message s)) ->
      update_message (store bs s) = Raise ValueError (store bs s))
  /\ (len bs <= 251 -> len (Message.data (message s)) <= len bs + 4 ->
      exists s',
        update_message (store bs s) = Return tt s'
        /\ synced s' /\ content (view s') = bs
        /\ len (Message.data (message s')) = len bs + 4
        /\ nth 1 (Message.data (message s')) x00
           = nth 1 (Message.data (message s)) x00).
Proof.
  intros Hk Hn. unfold update_message, store. rewrite Hk.
  cbn [view message content]. split; [|split].
  - intros Hbs.
    now rewrite (set_parameters_too_many (Message.ParametersArray bs) bs _ eq_refl).
  - intros Hbs Hshort.
    now rewrite (set_parameters_shrink (Message.ParametersArray bs) bs _ eq_refl).
  - intros Hbs Hfit.
    destruct (set_parameters_grow (Message.ParametersArray bs) bs
                (Message.mk (Message.data (message s)) (Some bs)) eq_refl Hbs)
      as [L [lo [hi [EL [Ecs Eset]]]]]; [exact Hfit|].
    pose proof (set_parameters_invariant _ _ _ Eset) as [Hsz Hcons].
    rewrite Eset. cbn [Message.is_ParametersArray Message.data
                       Message._parameters] in *.
    destruct (built_frame_parts L (nth 1 (Message.data (message s)) x00) lo hi bs)
      as [_ [_ [Hpar Hlen]]].
    eexists. split; [reflexivity|].
    unfold synced, frame_invariant, payload, Message.INDEX_PARAMETERS,
      Message.INDEX_CHECKSUM.
    cbn [view message content kept Message.data Message._parameters].
    rewrite slice_get_params, Hpar, Hlen. pose proof (len_nonneg bs).
    split; [|split; [reflexivity | split; reflexivity]].
    split; [reflexivity|]. split; [reflexivity|]. split; [reflexivity|].
    split; [lia | exact Hcons].
Qed.

(** The view a frame hands out is in step with it, as long as the frame
    keeps no other view. *)
Lemma of_message_synced (m : Message.t) :
  frame_invariant m ->
  Message._parameters m = None \/ Message._parameters m = Some (payload m) ->
  synced (of_message m) /\ content (view (of_message m)) = payload m
  /\ Message.data (message (of_message m)) = Message.data m.
Proof.
  intros Hinv Hview. unfold of_message.
  assert (E : exists m', Message.parameters m = Message.Return (payload m) m'
                         /\ Message.data m' = Message.data m
                         /\ Message._parameters m' = Some (payload m)).
  { unfold Message.parameters. destruct Hview as [Hv|Hv]; rewrite Hv.
    - eexists. split; [reflexivity|]. split; reflexivity.
    - destruct (payload m) as [|b w] eqn:Ep.
      + unfold Message.bind, Message.getslice, Message.set_view, Message.ret.
        fold (payload m). rewrite Ep. eexists. split; [reflexivity|].
        split; reflexivity.
      + exists m. split; [reflexivity|]. split; [reflexivity | exact Hv]. }
  destruct E as [m' [-> [Hd Hp]]]. cbn [view message content kept].
  split; [|split; [reflexivity | exact Hd]].
  unfold synced. cbn [view message content kept].
  split; [reflexivity|]. split; [exact Hp|]. split.
  - unfold payload. now rewrite Hd.
  - destruct Hinv as [Hn Hc]. split; [now rewrite Hd|].
    now apply (checksum_consistent_data m).
Qed.

Lemma item_index_Some_lt (m i : Z) (n : nat) :
  item_index m i = Some n -> Z.of_nat n < m.
Proof.
  unfold item_index. cbv zeta.
  set (j := if i <? 0 then i + m else i).
  destruct (Z.ltb_spec j 0); destruct (Z.leb_spec m j); cbn [orb];
    try discriminate.
  intros E. injection E as <-. lia.
Qed.

Lemma synced_sizes (s : state) :
  synced s ->
  kept (view s) = true
  /\ 3 <= len (Message.data (message s)) <= 255
  /\ len (content (view s)) = Z.max 0 (len (Message.data (message s)) - 4).
Proof.
  intros [Hk [_ [Hp [Hn _]]]]. split; [exact Hk|]. split; [exact Hn|].
  now rewrite <- Hp, len_payload.
Qed.

(** X19. Assigning a byte to a position of a view that is in step with
    its message writes through: the call returns, view and message are
    in step again, the view holds the new byte at that position, and the
    message kept its size and its command. *)
Theorem view_item_assignment (s : state) (i z : Z) (b : byte) (n : nat) :
  synced s ->
  byte_of_int z = Some b ->
  item_index (len (content (view s))) i = Some n ->
  exists s',
    __setitem__ (Index i) (Int z) s = Return tt s'
    /\ synced s'
    /\ content (view s') = list_update (content (view s)) n b
    /\ len (Message.data (message s')) = len (Message.data (message s))
    /\ nth 1 (Message.data (message s')) x00
       = nth 1 (Message.data (message s)) x00.
Proof.
  intros Hs Hb Hi. destruct (synced_sizes s Hs) as [Hk [Hn Hc]].
  apply item_index_Some_lt in Hi as Hlt.
  set (bs := list_update (content (view s)) n b).
  assert (Hbs : len bs = len (content (view s)))
    by (unfold bs, len; now rewrite list_update_length).
  destruct (update_after_store s bs Hk (proj2 Hn)) as [_ [_ H]].
  destruct H as [s' [E [Hs' [Hc' [Hl Hcmd]]]]]; [lia | lia|].
  exists s'. unfold __setitem__, bytearray_setitem. rewrite Hb, Hi. fold bs.
  split; [exact E|]. split; [exact Hs'|]. split; [exact Hc'|].
  split; [lia | exact Hcmd].
Qed.

(** X20. Appending a byte to a view that is in step with its message and
    holds fewer than 251 bytes writes through: the message grows to the
    new payload plus four bytes and keeps its command. *)
Theorem view_append (s : state) (z : Z) (b : byte) :
  synced s ->
  byte_of_int z = Some b ->
  len (content (view s)) < 251 ->
  exists s',
    append (Int z) s = Return tt s'
    /\ synced s'
    /\ content (view s') = content (view s) ++ [b]
    /\ len (Message.data (message s')) = len (content (view s)) + 5
    /\ nth 1 (Message.data (message s')) x00
       = nth 1 (Message.data (message s)) x00.
Proof.
  intros Hs Hb Hlt. destruct (synced_sizes s Hs) as [Hk [Hn Hc]].
  set (bs := content (view s) ++ [b]).
  assert (Hbs : len bs = len (content (view s)) + 1)
    by (unfold bs; rewrite len_app; reflexivity).
  destruct (update_after_store s bs Hk (proj2 Hn)) as [_ [_ H]].
  destruct H as [s' [E [Hs' [Hc' [Hl Hcmd]]]]]; [lia | lia|].
  exists s'. unfold append, bytearray_append. rewrite Hb. fold bs.
  split; [exact E|]. split; [exact Hs'|]. split; [exact Hc'|].
  split; [lia | exact Hcmd].
Qed.

(** X21. Appending to a view of 251 bytes leaves view and message out of
    step: the byte is added to the view before the message refuses the
    payload, so the call raises the too-many-parameters exception with
    the bytes of the message unchanged and a view of 252 bytes, which
    the message still keeps. *)
Theorem view_append_overflow (s : state) (z : Z) (b : byte) :
  synced s ->
  byte_of_int z = Some b ->
  len (content (view s)) = 251 ->
  exists s',
    append (Int z) s = Raise Message.TooManyParameters s'
    /\ Message.data (message s') = Message.data (message s)
    /\ content (view s') = content (view s) ++ [b]
    /\ Message._parameters (message s') = Some (content (view s) ++ [b])
    /\ len (payload (message s')) = 251
    /\ ~ synced s'.
Proof.
  intros Hs Hb H251. destruct (synced_sizes s Hs) as [Hk [Hn Hc]].
  set (bs := content (view s) ++ [b]).
  assert (Hbs : len bs = 252)
    by (unfold bs; rewrite len_app, H251; reflexivity).
  destruct (update_after_store s bs Hk (proj2 Hn)) as [E _].
  exists (store bs s). unfold append, bytearray_append. rewrite Hb. fold bs.
  split; [apply E; lia|].
  unfold store. rewrite Hk. cbn [view message content Message.data
                                 Message._parameters].
  assert (Hp : len (payload (Message.mk (Message.data (message s)) (Some bs)))
               = 251).
  { rewrite len_payload. cbn [Message.data]. lia. }
  repeat split; try reflexivity; try exact Hp.
  intros [_ [_ [Hp' _]]]. cbn [view message content] in Hp'.
  rewrite Hp' in Hp. lia.
Qed.

(** X22. A slice assignment on a view in step with its message writes
    through when the view does not get shorter (and stays within 251
    bytes); when it gets shorter, the view is changed, the message
    refuses the shorter payload with [ValueError] and keeps its bytes,
    and the two are out of step. *)
Theorem view_slice_assignment (s : state) (start stop : option Z)
    (v : list byte) :
  synced s ->
  let bs := slice_set (content (view s)) start stop v in
  (len (content (view s)) <= len bs <= 251 ->
   exists s',
     __setitem__ (Slice start stop) (Bytes v) s = Return tt s'
     /\ synced s' /\ content (view s') = bs
     /\ len (Message.data (message s')) = len bs + 4)
  /\ (len bs < len (content (view s)) ->
      exists s',
        __setitem__ (Slice start stop) (Bytes v) s = Raise ValueError s'
        /\ Message.data (message s') = Message.data (message s)
        /\ content (view s') = bs
        /\ ~ synced s').
Proof.
  intros Hs bs. destruct (synced_sizes s Hs) as [Hk [Hn Hc]].
  destruct (update_after_store s bs Hk (proj2 Hn)) as [_ [Hshort Hfit]].
  unfold __setitem__, bytearray_setitem. fold bs. split.
  - intros Hlen. destruct Hfit as [s' [E [Hs' [Hc' [Hl _]]]]]; [lia | lia|].
    exists s'. split; [exact E|]. split; [exact Hs'|].
    split; [exact Hc' | exact Hl].
  - intros Hlen. pose proof (len_nonneg bs).
    exists (store bs s). split; [apply Hshort; lia|].
    unfold store. rewrite Hk.
    cbn [view message content Message.data Message._parameters].
    repeat split; try reflexivity.
    intros [_ [_ [Hp' _]]]. cbn [view message content] in Hp'.
    assert (Hp : len (payload (Message.mk (Message.data (message s)) (Some bs)))
                 = len (content (view s))).
    { rewrite len_payload. cbn [Message.data]. lia. }
    rewrite Hp' in Hp. lia.
Qed.

End Views.

Section ViewExamples.
Import ParametersArray.

Lemma frame_view_synced (c : Z) (ps : list Z) (m : Message.t) :
  Message.new c ps = Ok m -> Message._parameters m = Some (payload m) ->
  synced (of_message m).
Proof.
  intros E Hv. apply of_message_synced; [|now right].
  apply Frame_invariant. exact (Frame_new c ps m E).
Qed.

Lemma view_item_assignment_witness :
  synced (of_message (Message.mk [x06; x01; x05; x0a; x16; x00] (Some [x05; x0a])))
  /\ exists s',
       __setitem__ (Index 1) (Int 0x0b)
         (of_message (Message.mk [x06; x01; x05; x0a; x16; x00] (Some [x05; x0a])))
       = Return tt s'
       /\ content (view s') = [x05; x0b].
Proof.
  assert (Hs : synced (of_message (Message.mk [x06; x01; x05; x0a; x16; x00]
                                              (Some [x05; x0a]))))
    by (apply (frame_view_synced 0x01 [0x05; 0x0A]); reflexivity).
  split; [exact Hs|].
  destruct (view_item_assignment _ 1 0x0b x0b 1 Hs eq_refl eq_refl)
    as [s' [E [_ [Hc _]]]].
  exists s'. split; [exact E | exact Hc].
Defined.

Lemma view_append_witness :
  synced (of_message (Message.mk [x06; x01; x05; x0a; x16; x00] (Some [x05; x0a])))
  /\ exists s',
       append (Int 0x0b)
         (of_message (Message.mk [x06; x01; x05; x0a; x16; x00] (Some [x05; x0a])))
       = Return tt s'
       /\ content (view s') = [x05; x0a; x0b]
       /\ len (Message.data (message s')) = 7.
Proof.
  assert (Hs : synced (of_message (Message.mk [x06; x01; x05; x0a; x16; x00]
                                              (Some [x05; x0a]))))
    by (apply (frame_view_synced 0x01 [0x05; 0x0A]); reflexivity).
  split; [exact Hs|].
  destruct (view_append _ 0x0b x0b Hs eq_refl) as [s' [E [_ [Hc [Hl _]]]]];
    [vm_compute; reflexivity|].
  exists s'. split; [exact E|]. split; [exact Hc | exact Hl].
Defined.

Lemma view_append_overflow_witness :
  synced (of_message (Message.mk (xff :: x01 :: repeat x00 251 ++ [x00; x01])
                                 (Some (repeat x00 251))))
  /\ exists s',
       append (Int 0x01)
         (of_message (Message.mk (xff :: x01 :: repeat x00 251 ++ [x00; x01])
                                 (Some (repeat x00 251))))
       = Raise Message.TooManyParameters s'
       /\ ~ synced s'.
Proof.
  assert (Hs : synced (of_message
                         (Message.mk (xff :: x01 :: repeat x00 251 ++ [x00; x01])
                                     (Some (repeat x00 251)))))
    by (apply (frame_view_synced 0x01 (repeat 0 251)); vm_compute; reflexivity).
  split; [exact Hs|].
  destruct (view_append_overflow _ 0x01 x01 Hs eq_refl)
    as [s' [E [_ [_ [_ [_ Hn]]]]]]; [vm_compute; reflexivity|].
  exists s'. split; [exact E | exact Hn].
Defined.

Lemma view_slice_assignment_witness :
  synced (of_message (Message.mk [x06; x01; x05; x0a; x16; x00] (Some [x05; x0a])))
  /\ exists s',
       __setitem__ (Slice (Some 0) (Some 1)) (Bytes [])
         (of_message (Message.mk [x06; x01; x05; x0a; x16; x00] (Some [x05; x0a])))
       = Raise ValueError s'
       /\ Message.data (message s') = [x06; x01; x05; x0a; x16; x00]
       /\ content (view s') = [x0a].
Proof.
  assert (Hs : synced (of_message (Message.mk [x06; x01; x05; x0a; x16; x00]
                                              (Some [x05; x0a]))))
    by (apply (frame_view_synced 0x01 [0x05; 0x0A]); reflexivity).
  split; [exact Hs|].
  destruct (view_slice_assignment _ (Some 0) (Some 1) [] Hs) as [_ H].
  destruct H as [s' [E [Hd [Hc _]]]]; [vm_compute; reflexivity|].
  exists s'. split; [exact E|]. split; [exact Hd | exact Hc].
Defined.

End ViewExamples.

Section LinkExamples.
Import RR10.

Lemma send_ready_witness :
  run (send (Message.mk [x04; x03; x07; x00] (Some []))) (mkScript [xaa] [])
  = (Ok 4, mkScript [] [[x55]; [x04; x03; x07; x00]],
     [DidWrite [x55] 1; DidRead 1 [xaa]; DidWrite [x04; x03; x07; x00] 4]).
Proof.
  apply (send_ready (Message.mk [x04; x03; x07; x00] (Some []))
           (mkScript [xaa] []) (mkScript [xaa] [[x55]]) (mkScript [] [[x55]])
           (mkScript [] [[x55]; [x04; x03; x07; x00]]) 1 4);
    reflexivity.
Defined.

Lemma send_desync_witness :
  run (send (Message.mk [x04; x03; x07; x00] (Some []))) (mkScript [xa5] [])
  = (Err TypeError, mkScript [] [[x55]], [DidWrite [x55] 1; DidRead 1 [xa5]]).
Proof.
  apply (send_desync (Message.mk [x04; x03; x07; x00] (Some []))
           (mkScript [xa5] []) (mkScript [xa5] [[x55]]) (mkScript [] [[x55]])
           1 [xa5]);
    [reflexivity | reflexivity | discriminate].
Defined.

Lemma ready_to_receive_ready_witness :
  run ready_to_receive (mkScript [xa5; x04] [])
  = (Ok true, mkScript [x04] [[x5a]], [DidRead 1 [xa5]; DidWrite [x5a] 1]).
Proof.
  apply (ready_to_receive_ready (mkScript [xa5; x04] []) (mkScript [x04] [])
           (mkScript [x04] [[x5a]]) 1);
    reflexivity.
Defined.

Lemma ready_to_receive_desync_witness :
  run ready_to_receive (mkScript [xaa] [])
  = (Err TypeError, mkScript [] [], [DidRead 1 [xaa]]).
Proof.
  apply (ready_to_receive_desync (mkScript [xaa] []) (mkScript [] []) [xaa]);
    [reflexivity | discriminate].
Defined.

End LinkExamples.

Lemma tampered_checksum_rejected_witness :
  Message.from_bytes ([x04; x03] ++ [x07; x00])
  = Ok (Message.mk [x04; x03; x07; x00] None)
  /\ Message.from_bytes ([x04; x03] ++ [x00; x07])
     = Err (Message.ChecksumMismatch [x07; x00]).
Proof.
  split; [reflexivity|].
  apply (tampered_checksum_rejected [x04; x03] [x00; x07] x07 x00
           (Message.mk [x04; x03; x07; x00] None));
    [reflexivity | reflexivity | discriminate].
Defined.

(** X23. The [parameters] getter never changes the bytes of the message,
    and asking again returns the same bytes and changes nothing more. *)
Theorem parameters_stable (self self' : Message.t) (p : list byte) :
  Message.parameters self = Message.Return p self' ->
  Message.data self' = Message.data self
  /\ Message.parameters self' = Message.Return p self'.
Proof.
  assert (Hfresh : forall d view,
            (view = None \/ view = Some []) ->
            Message.parameters (Message.mk d view)
            = Message.Return (payload (Message.mk d view))
                (Message.mk d (Some (payload (Message.mk d view))))).
  { intros d view [-> | ->]; reflexivity. }
  assert (Hdone : forall d view,
            Message.parameters (Message.mk d (Some (payload (Message.mk d view))))
            = Message.Return (payload (Message.mk d view))
                (Message.mk d (Some (payload (Message.mk d view))))).
  { intros d view.
    destruct (payload (Message.mk d view)) as [|b w] eqn:Ep; [|reflexivity].
    rewrite (Hfresh d (Some [])) by now right.
    change (payload (Message.mk d (Some []))) with (payload (Message.mk d view)).
    now rewrite Ep. }
  destruct self as [d [[|b w]|]].
  - rewrite (Hfresh d (Some [])) by now right.
    intros E. injection E as <- <-. split; [reflexivity | apply Hdone].
  - intros E. injection E as <- <-. split; reflexivity.
  - rewrite (Hfresh d None) by now left.
    intros E. injection E as <- <-. split; [reflexivity | apply Hdone].
Qed.

Lemma parameters_stable_witness :
  Message.parameters (Message.mk [x06; x01; x05; x0a; x16; x00] None)
  = Message.Return [x05; x0a]
      (Message.mk [x06; x01; x05; x0a; x16; x00] (Some [x05; x0a]))
  /\ Message.parameters
       (Message.mk [x06; x01; x05; x0a; x16; x00] (Some [x05; x0a]))
     = Message.Return [x05; x0a]
         (Message.mk [x06; x01; x05; x0a; x16; x00] (Some [x05; x0a])).
Proof.
  split; [reflexivity|].
  apply (parameters_stable (Message.mk [x06; x01; x05; x0a; x16; x00] None)).
  reflexivity.
Defined.
